(** * SciDB-py: the Shim connection object and the binary result decoder

    A shallow embedding of [scidbpy/db.py]: the connection object [DB]
    (constructor, [_shim], [iquery_readlines], [iquery]), the deferred
    expression object [SciDB], and the two loops of [DB.iquery] that turn
    the downloaded byte buffer into records.

    [db.py] imports [Attribute], [Dimension] and [Schema] from
    [scidbpy/schema.py].  The methods of these classes that [db.py] calls
    are embedded in [Module Schema_py]; what is written there follows the
    prose description of the decoder and the doctests of [db.py].

    Conventions.  Python [str] is [string], [bytes] is [list byte] (how
    the bytes of an answer are decoded into a [str] is left open), a Python [int] used as a buffer offset or a
    length is [nat], a decoded integer is [Z].  An exception is the
    constructor [Raise] of [result]; a call that never returns is
    [Diverge]. *)

From Stdlib Require Import ZArith List String Ascii Bool Lia Arith.
From Stdlib Require Import Strings.Byte.
From Stdlib Require Import DecimalString DecimalNat.
From Stdlib Require Import Sorted.
Import ListNotations.

Local Open Scope list_scope.

(** ** Python builtins used by [db.py] *)

Module Py.

(** [str.lower] on the ASCII range; other characters are left alone. *)
Definition lower_ascii (c : ascii) : ascii :=
  let n := nat_of_ascii c in
  if (65 <=? n) && (n <=? 90) then ascii_of_nat (n + 32) else c.

Fixpoint lower (s : string) : string :=
  match s with
  | EmptyString => EmptyString
  | String c s' => String (lower_ascii c) (lower s')
  end.

(** [s.startswith(p)] *)
Definition startswith (s p : string) : bool := String.prefix p s.

(** [sep.join(l)] *)
Definition join (sep : string) (l : list string) : string :=
  String.concat sep l.

(** [s.replace(old, new)] for a one-character [old]. *)
Fixpoint replace_char (old : ascii) (new : string) (s : string) : string :=
  match s with
  | EmptyString => EmptyString
  | String c s' =>
      if Ascii.eqb c old
      then String.append new (replace_char old new s')
      else String c (replace_char old new s')
  end.

(** The white space on which [str.split()] cuts, among the characters
    below 256: tab to carriage return, the four separators, the space,
    the next-line control and the no-break space. *)
Definition isspace (c : ascii) : bool :=
  let n := nat_of_ascii c in
  ((9 <=? n) && (n <=? 13)) || ((28 <=? n) && (n <=? 32))
  || (n =? 133) || (n =? 160).

(** [s.split()]: [cur] holds the characters of the word being read, in
    reverse. *)
Fixpoint split_aux (s : string) (cur : list ascii) : list string :=
  let flush (k : list string) :=
    match cur with
    | [] => k
    | _ => string_of_list_ascii (rev cur) :: k
    end in
  match s with
  | EmptyString => flush []
  | String c s' =>
      if isspace c then flush (split_aux s' []) else split_aux s' (c :: cur)
  end.

Definition split (s : string) : list string := split_aux s [].

(** [list.sort()] on strings. *)
Fixpoint insert_sorted (x : string) (l : list string) : list string :=
  match l with
  | [] => [x]
  | y :: l' => if String.leb x y then x :: l else y :: insert_sorted x l'
  end.

Definition sort (l : list string) : list string :=
  fold_right insert_sorted [] l.

(** [x in l] on strings. *)
Definition contains (l : list string) (x : string) : bool :=
  existsb (String.eqb x) l.

Definition str_of_nat (n : nat) : string :=
  NilEmpty.string_of_uint (Nat.to_uint n).

Definition str_of_Z (z : Z) : string :=
  NilEmpty.string_of_int (Z.to_int z).

(** The Python values that travel as operator arguments and as request
    parameters. *)
Inductive value : Type :=
| VStr (s : string)
| VInt (z : Z)
| VBool (b : bool).

(** ['{}'.format(v)] *)
Definition format (v : value) : string :=
  match v with
  | VStr s => s
  | VInt z => str_of_Z z
  | VBool true => "True"
  | VBool false => "False"
  end.

(** [d.update(e)] on a dictionary kept as an association list in
    insertion order. *)
Fixpoint dict_set (d : list (string * value)) (k : string) (v : value)
  : list (string * value) :=
  match d with
  | [] => [(k, v)]
  | (k', v') :: d' =>
      if String.eqb k k' then (k, v) :: d' else (k', v') :: dict_set d' k v
  end.

Definition dict_update (d e : list (string * value)) : list (string * value) :=
  fold_left (fun acc kv => dict_set acc (fst kv) (snd kv)) e d.

End Py.

(** ** Exceptions and results *)

Inductive exn : Type :=
| Exception (msg : string)        (* [raise Exception(msg)] *)
| AttributeError (msg : string)
| TypeError
| IndexError
| HTTPError                       (* [req.raise_for_status()] *)
| TruncatedBuffer                 (* the buffer ends inside a field *)
| MalformedField                  (* the length of a variable-width field cannot be read *)
| SchemaMismatch.

Inductive result (A : Type) : Type :=
| Ok (a : A)
| Raise (e : exn)
| Diverge.

Arguments Ok {A} a.
Arguments Raise {A} e.
Arguments Diverge {A}.

Definition bind {A B : Type} (r : result A) (k : A -> result B) : result B :=
  match r with
  | Ok a => k a
  | Raise e => Raise e
  | Diverge => Diverge
  end.

Declare Scope res_scope.
Delimit Scope res_scope with res.
Notation "x <- e ;; k" := (bind e (fun x => k))
  (at level 61, e at next level, right associativity) : res_scope.
Notation "' p <- e ;; k" := (bind e (fun p => k))
  (at level 61, p pattern, e at next level, right associativity) : res_scope.

(** [mapM] in the exception monad: the first exception met wins, as in a
    Python loop or generator that is left by the first [raise]. *)
Fixpoint mapM {A B : Type} (f : A -> result B) (l : list A) : result (list B) :=
  match l with
  | [] => Ok []
  | a :: l' =>
      (b <- f a ;;
       bs <- mapM f l' ;;
       Ok (b :: bs))%res
  end.

(** ** [scidbpy/schema.py]: attributes, dimensions, schemas *)

Module Schema_py.

(** SciDB type names.  The floating-point types are left out: their
    payload is not interpreted here. *)
Inductive TypeName : Type :=
| int8 | int16 | int32 | int64
| uint8 | uint16 | uint32 | uint64
| bool_
| string_.

(** [Attribute(name, type_name, not_null=False)] *)
Record Attribute : Type := mkAttribute {
  name : string;
  type_name : TypeName;
  not_null : bool
}.

(** [Dimension(name, low_value=None, high_value=None)] *)
Record Dimension : Type := mkDimension {
  dim_name : string;
  low_value : option Z;
  high_value : option Z
}.

(** [Schema(name=None, atts=(), dims=())] *)
Record Schema : Type := mkSchema {
  sch_name : option string;
  atts : list Attribute;
  dims : list Dimension
}.

(** What a cell of the NumPy record array or of the DataFrame holds. *)
Inductive Float : Type :=
| NaN
| of_int (z : Z).               (* [float(z)] *)

Inductive Value : Type :=
| NpInt (z : Z)
| NpBool (b : bool)
| NpStr (bs : list byte)
| NpPair (null : Z) (val : Value)   (* a [('null', 'val')] record *)
| NpFloat (f : Float)
| NpNone.

Inductive DType : Type :=
| D_int (signed : bool) (width : nat)    (* ['<i8'], ['u1'], ... *)
| D_bool
| D_object
| D_float                                 (* a floating-point dtype, of any width *)
| D_null_val (val : DType).              (* [[('null', 'u1'), ('val', val)]] *)

Definition is_integer (t : TypeName) : bool :=
  match t with
  | bool_ | string_ => false
  | _ => true
  end.

Definition is_signed (t : TypeName) : bool :=
  match t with
  | int8 | int16 | int32 | int64 => true
  | _ => false
  end.

(** Modelled from the spec: the byte width of a fixed-width type
    ([schema.py] is not part of the sources; section 3: primitive type
    tags map to fixed or variable byte widths, int64 = 8 bytes fixed,
    string = variable-length). [None] is a variable-width type. *)
Definition fixed_width (t : TypeName) : option nat :=
  match t with
  | int8 | uint8 | bool_ => Some 1
  | int16 | uint16 => Some 2
  | int32 | uint32 => Some 4
  | int64 | uint64 => Some 8
  | string_ => None
  end.

Definition is_fixed (a : Attribute) : bool :=
  match fixed_width (type_name a) with Some _ => true | None => false end.

(** The null-indicator byte that precedes the value of a nullable
    attribute. *)
Definition null_size (a : Attribute) : nat :=
  if not_null a then 0 else 1.

(** [buf[off : off + sz]], refused when the buffer is too short. *)
Definition read (buf : list byte) (off sz : nat) : option (list byte) :=
  if off + sz <=? List.length buf then Some (firstn sz (skipn off buf)) else None.

(** Little-endian integers. *)
Fixpoint le_unsigned (bs : list byte) : Z :=
  match bs with
  | [] => 0%Z
  | b :: bs' => (Z.of_N (Byte.to_N b) + 256 * le_unsigned bs')%Z
  end.

Definition le_signed (bs : list byte) : Z :=
  let u := le_unsigned bs in
  let w := (8 * Z.of_nat (List.length bs))%Z in
  if (u <? 2 ^ (w - 1))%Z then u else (u - 2 ^ w)%Z.

(** Modelled from the spec: [Attribute.itemsize(buf, off)] of
    [schema.py], which is not part of the sources (section 4.1, step 2a:
    fixed types use a constant width; variable types compute the width
    from the current offset via an embedded length; a length that cannot
    be found before the buffer ends is a MalformedField).  The embedded
    length is taken to be a 4-byte little-endian count placed after the
    null-indicator byte. *)
Definition itemsize (a : Attribute) (buf : list byte) (off : nat) : result nat :=
  match fixed_width (type_name a) with
  | Some w => Ok (null_size a + w)
  | None =>
      match read buf (off + null_size a) 4 with
      | Some p => Ok (null_size a + 4 + Z.to_nat (le_unsigned p))
      | None => Raise MalformedField
      end
  end.

(** The payload bytes of one field interpreted per the type tag. *)
Definition decode_val (t : TypeName) (payload : list byte) : Value :=
  match t with
  | string_ => NpStr (skipn 4 payload)
  | bool_ => NpBool (negb (le_unsigned payload =? 0)%Z)
  | _ => NpInt (if is_signed t then le_signed payload else le_unsigned payload)
  end.

(** The cell that stands for an absent value in a promoted column. *)
Definition sentinel (t : TypeName) : Value :=
  if is_integer t then NpFloat NaN else NpNone.

(** A present value stored in a promoted column. *)
Definition widen (t : TypeName) (v : Value) : Value :=
  match v with
  | NpInt z => if is_integer t then NpFloat (of_int z) else v
  | _ => v
  end.

(** The indicator byte of a value that is present.  The doctests of
    [db.py] show it: [scan(foo)] yields the pairs [(255, 0)], [(255, 1)],
    [(255, 2)], and the same values under promotion print as [0.0],
    [1.0], [2.0]. *)
Definition not_missing : Z := 255%Z.

(** Modelled from the spec: [Attribute.frombytes(buf, off, sz, promo)]
    of [schema.py], which is not part of the sources (section 4.1, step 3:
    the field's value is extracted from the buffer at its (offset, width)
    and decoded per its type tag, a nullable field being split into the
    null-indicator byte and the remaining value bytes; a buffer that
    ends inside the field is a TruncatedBuffer; section 4.2: under
    promotion an absent value becomes the type's sentinel, without it
    the pair is exposed as it is).  Under promotion the value returned
    is the cell as the promoted column stores it, a present integer
    being a float.  Which indicator marks a present
    value is read off the doctests of [db.py], see [not_missing]. *)
Definition frombytes (a : Attribute) (buf : list byte) (off sz : nat)
           (promo : bool) : result Value :=
  match read buf off sz with
  | None => Raise TruncatedBuffer
  | Some bs =>
      if not_null a then Ok (decode_val (type_name a) bs)
      else
        match bs with
        | [] => Raise TruncatedBuffer
        | ind :: payload =>
            let null := Z.of_N (Byte.to_N ind) in
            let v := decode_val (type_name a) payload in
            if promo
            then Ok (if (null =? not_missing)%Z
                     then widen (type_name a) v
                     else sentinel (type_name a))
            else Ok (NpPair null v)
        end
  end.

Definition val_dtype (t : TypeName) : DType :=
  match t with
  | string_ => D_object
  | bool_ => D_bool
  | _ => D_int (is_signed t)
               (match fixed_width t with Some w => w | None => 0 end)
  end.

(** [Attribute.dtype] *)
Definition dtype (a : Attribute) : DType :=
  if not_null a then val_dtype (type_name a)
  else D_null_val (val_dtype (type_name a)).

(** Modelled from the spec: the element type of a promoted column
    (section 4.2: nullable integer -> floating point, nullable boolean
    -> object column). *)
Definition promo_dtype (a : Attribute) : DType :=
  if not_null a then val_dtype (type_name a)
  else if is_integer (type_name a) then D_float else D_object.

(** [Schema.atts_dtype] and [Schema.get_promo_atts_dtype()] *)
Definition atts_dtype (s : Schema) : list (string * DType) :=
  map (fun a => (name a, dtype a)) (atts s).

Definition get_promo_atts_dtype (s : Schema) : list (string * DType) :=
  map (fun a => (name a, promo_dtype a)) (atts s).

(** The candidate names [base_1], [base_2], ... *)
Definition suffixed (base : string) (count : nat) : string :=
  String.append base (String.append "_" (Py.str_of_nat count)).

(** The first candidate from [count] on that is not taken.  At most
    [length taken] candidates can be taken, which bounds the search. *)
Fixpoint fresh_name (fuel : nat) (base : string) (count : nat)
         (taken : list string) : string :=
  match fuel with
  | 0 => suffixed base count
  | S fuel' =>
      if Py.contains taken (suffixed base count)
      then fresh_name fuel' base (S count) taken
      else suffixed base count
  end.

Definition rename (d : Dimension) (n : string) : Dimension :=
  {| dim_name := n; low_value := low_value d; high_value := high_value d |}.

(** The loop of [make_dims_unique] over the dimensions: [done] holds
    the dimensions already visited. *)
Fixpoint rename_dims (att_names : list string) (done todo : list Dimension)
  : bool * list Dimension :=
  match todo with
  | [] => (false, done)
  | d :: rest =>
      if Py.contains att_names (dim_name d)
      then
        let taken := att_names ++ map dim_name done ++ map dim_name rest in
        let d' := rename d (fresh_name (List.length taken) (dim_name d) 1 taken) in
        (true, snd (rename_dims att_names (done ++ [d']) rest))
      else rename_dims att_names (done ++ [d]) rest
  end.

(** Modelled from the spec: [Schema.make_dims_unique()] of [schema.py],
    which is not part of the sources (section 4.2: collisions of
    dimension names with attribute names are resolved before decoding;
    the doctest of [db.py] shows the dimension [i] renamed to [i_1]).
    Returns whether a dimension was renamed, and the schema. *)
Definition make_dims_unique (s : Schema) : bool * Schema :=
  let r := rename_dims (map name (atts s)) [] (dims s) in
  (fst r, {| sch_name := sch_name s; atts := atts s; dims := snd r |}).

Definition dim_att (d : Dimension) : Attribute :=
  {| name := dim_name d; type_name := int64; not_null := true |}.

(** Modelled from the spec: [Schema.make_dims_atts()] of [schema.py],
    which is not part of the sources (section 3: dimension fields and
    attribute fields are concatenated, dimensions first; the doctests
    of [db.py] show each dimension as a ['<i8'] field in front of the
    attributes). *)
Definition make_dims_atts (s : Schema) : Schema :=
  {| sch_name := sch_name s;
     atts := map dim_att (dims s) ++ atts s;
     dims := dims s |}.

End Schema_py.

(** ** [scidbpy/db.py] *)

Module Db.

Import Schema_py.

(** [class Shim(enum.Enum)] *)
Inductive Shim : Type :=
| cancel
| execute_query
| new_session
| read_bytes
| release_session.

Definition Shim_eqb (a b : Shim) : bool :=
  match a, b with
  | cancel, cancel | execute_query, execute_query
  | new_session, new_session | read_bytes, read_bytes
  | release_session, release_session => true
  | _, _ => false
  end.

(** [class Password_Placeholder]: an object that carries nothing and
    prints as [PASSWORD_PROVIDED]. *)
Inductive Password_Placeholder : Type := PASSWORD_PROVIDED.

(** [requests.auth.HTTPDigestAuth(username, password)] *)
Record HTTPDigestAuth : Type := mkDigest {
  username : string;
  password : string
}.

(** [class DB].  The fields with a leading underscore are the private
    ones; [scidb_auth] and [http_auth] are the ones [__iter__],
    [__repr__] and [__str__] show.  The field [arrays], a proxy that
    only holds the connection, is not kept. *)
Record DB : Type := mkDB {
  scidb_url : string;
  role : option string;
  namespace : option string;
  verify : option bool;
  _http_auth : option HTTPDigestAuth;
  http_auth : option (string * Password_Placeholder);
  _scidb_auth : option (list (string * Py.value));
  scidb_auth : option (string * Password_Placeholder);
  operators : list string
}.

Definition set_operators (self : DB) (ops : list string) : DB :=
  {| scidb_url := scidb_url self; role := role self;
     namespace := namespace self; verify := verify self;
     _http_auth := _http_auth self; http_auth := http_auth self;
     _scidb_auth := _scidb_auth self; scidb_auth := scidb_auth self;
     operators := ops |}.

(** One [requests.get] call: the base URL and the endpoint joined to
    it, the query parameters, the HTTP credentials, the [verify] flag. *)
Record Request : Type := mkRequest {
  req_url : string;
  req_endpoint : Shim;
  req_params : list (string * Py.value);
  req_auth : option HTTPDigestAuth;
  req_verify : option bool
}.

(** Code that talks to Shim: it reads and extends the list of the
    requests sent so far, and returns or raises. *)
Definition M (A : Type) : Type := list Request -> result A * list Request.

Definition ret {A : Type} (a : A) : M A := fun log => (Ok a, log).

Definition raise {A : Type} (e : exn) : M A := fun log => (Raise e, log).

Definition lift {A : Type} (r : result A) : M A := fun log => (r, log).

Definition bindM {A B : Type} (m : M A) (k : A -> M B) : M B :=
  fun log =>
    match m log with
    | (Ok a, log') => k a log'
    | (Raise e, log') => (Raise e, log')
    | (Diverge, log') => (Diverge, log')
    end.

Declare Scope shim_scope.
Delimit Scope shim_scope with shim.
Notation "x <~ e ;; k" := (bindM e (fun x => k))
  (at level 61, e at next level, right associativity) : shim_scope.

(** The result of [iquery]: [None] without [fetch], a NumPy record
    array, or a Pandas DataFrame (its columns, by name). *)
Inductive iquery_result : Type :=
| RNone
| RArray (dt : list (string * DType)) (records : list (list Value))
| RDataFrame (columns : list (string * DType * list Value)).

(** The keyword arguments of [iquery] and their defaults. *)
Record iquery_args : Type := mkArgs {
  fetch : bool;
  atts_only : bool;
  as_dataframe : bool;
  dataframe_promo : bool;
  schema : option (Schema + string)
}.

Definition iquery_defaults : iquery_args :=
  {| fetch := false; atts_only := false; as_dataframe := false;
     dataframe_promo := true; schema := None |}.

(** [pandas.DataFrame.from_records(ar)]: one column per field of the
    record array. *)
Definition column (i : nat) (records : list (list Value)) : list Value :=
  map (fun r => nth i r NpNone) records.

Fixpoint from_records_at (i : nat) (dt : list (string * DType))
         (records : list (list Value)) : list (string * DType * list Value) :=
  match dt with
  | [] => []
  | (n, t) :: dt' => (n, t, column i records) :: from_records_at (S i) dt' records
  end.

Definition from_records (dt : list (string * DType))
           (records : list (list Value)) : list (string * DType * list Value) :=
  from_records_at 0 dt records.

(** *** The two loops of [iquery] over the buffer

    They are written over any implementation of the two methods of
    [Attribute] they call. *)
Section Loops.

Context {Att : Type}.
Variable itemsize : Att -> list byte -> nat -> result nat.
Variable frombytes : Att -> list byte -> nat -> nat -> bool -> result Value.

(** [for att in sch.atts: sz = att.itemsize(buf, off);
     meta.append((off, sz)); off += sz] *)
Fixpoint scan_record (atts : list Att) (buf : list byte) (off : nat)
         (meta : list (nat * nat)) : result (nat * list (nat * nat)) :=
  match atts with
  | [] => Ok (off, meta)
  | att :: atts' =>
      (sz <- itemsize att buf off ;;
       scan_record atts' buf (off + sz) (meta ++ [(off, sz)]))%res
  end.

(** [while off < len(buf): meta = []; ...; buf_meta.append(meta)].
    [fuel] bounds the number of turns of the loop. *)
Fixpoint scan (fuel : nat) (atts : list Att) (buf : list byte) (off : nat)
         (buf_meta : list (list (nat * nat))) {struct fuel}
  : result (nat * list (list (nat * nat))) :=
  if off <? List.length buf then
    match fuel with
    | 0 => Diverge
    | S fuel' =>
        (r <- scan_record atts buf off [] ;;
         scan fuel' atts buf (fst r) (buf_meta ++ [snd r]))%res
    end
  else Ok (off, buf_meta).

(** A loop that ends at all ends within [len(buf)] turns (see
    [scan_fuel_enough]). *)
Definition first_pass (atts : list Att) (buf : list byte)
  : result (nat * list (list (nat * nat))) :=
  scan (List.length buf) atts buf 0 [].

(** [tuple(att.frombytes(buf, off, sz, promo=...)
           for (att, (off, sz)) in zip(sch.atts, meta))] *)
Fixpoint extract (atts : list Att) (meta : list (nat * nat))
         (buf : list byte) (promo : bool) : result (list Value) :=
  match atts, meta with
  | att :: atts', (off, sz) :: meta' =>
      (v <- frombytes att buf off sz promo ;;
       vs <- extract atts' meta' buf promo ;;
       Ok (v :: vs))%res
  | _, _ => Ok []
  end.

(** [for meta in buf_meta: ar.put((pos,), ...); pos += 1] *)
Definition second_pass (atts : list Att) (buf_meta : list (list (nat * nat)))
           (buf : list byte) (promo : bool) : result (list (list Value)) :=
  mapM (fun meta => extract atts meta buf promo) buf_meta.

Definition decode (atts : list Att) (buf : list byte) (promo : bool)
  : result (list (list Value)) :=
  (r <- first_pass atts buf ;;
   second_pass atts (snd r) buf promo)%res.

End Loops.

(** The decoder of [iquery] with the methods of [schema.py]. *)
Definition iquery_decode (atts : list Attribute) (buf : list byte)
           (promo : bool) : result (list (list Value)) :=
  decode Schema_py.itemsize Schema_py.frombytes atts buf promo.

(** Lines 461-496 of [iquery]: the buffer is scanned, the record array
    is created with the promoted or the plain dtype and filled, and it
    is returned as it is or as a DataFrame. *)
Definition iquery_records (a : iquery_args) (sch : Schema) (buf : list byte)
  : result iquery_result :=
  let promo := as_dataframe a && dataframe_promo a in
  (recs <- iquery_decode (atts sch) buf promo ;;
   let dt := if promo then get_promo_atts_dtype sch else atts_dtype sch in
   Ok (if as_dataframe a
       then RDataFrame (from_records dt recs)
       else RArray dt recs))%res.

(** *** The decoder as the specification words it

    These relations follow the prose of the decoder (section 4.1), not
    the code; the theorems below compare them with the loops. *)
Section DecoderSpec.

Context {Att : Type}.
Variable itemsize : Att -> list byte -> nat -> result nat.

(** Steps 2a-2c: for each field descriptor in order, the width of the
    field at the current offset is computed, the (offset, width) pair
    is recorded, and the offset advances by the width. *)
Inductive measured (buf : list byte)
  : list Att -> nat -> list (nat * nat) -> nat -> Prop :=
| measured_nil : forall off, measured buf [] off [] off
| measured_cons : forall att atts off sz meta off',
    itemsize att buf off = Ok sz ->
    measured buf atts (off + sz) meta off' ->
    measured buf (att :: atts) off ((off, sz) :: meta) off'.

(** Step 2: repeated until the offset reaches the buffer length. *)
Inductive measured_all (atts : list Att) (buf : list byte)
  : nat -> list (list (nat * nat)) -> nat -> Prop :=
| measured_stop : forall off,
    List.length buf <= off -> measured_all atts buf off [] off
| measured_more : forall off meta off' metas off'',
    off < List.length buf ->
    measured buf atts off meta off' ->
    measured_all atts buf off' metas off'' ->
    measured_all atts buf off (meta :: metas) off''.

End DecoderSpec.

(** Step 3, one field: the bytes of a field that cannot be null are
    its value; the bytes of a nullable field are split into the
    null-indicator byte and the remaining value bytes. *)
Inductive field_value (a : Attribute) (promo : bool)
  : list byte -> Value -> Prop :=
| field_not_null : forall bs,
    not_null a = true ->
    field_value a promo bs (decode_val (type_name a) bs)
| field_nullable_raw : forall ind payload,
    not_null a = false -> promo = false ->
    field_value a promo (ind :: payload)
      (NpPair (Z.of_N (Byte.to_N ind)) (decode_val (type_name a) payload))
| field_nullable_present : forall ind payload,
    not_null a = false -> promo = true ->
    Z.of_N (Byte.to_N ind) = not_missing ->
    field_value a promo (ind :: payload)
      (widen (type_name a) (decode_val (type_name a) payload))
| field_nullable_absent : forall ind payload,
    not_null a = false -> promo = true ->
    Z.of_N (Byte.to_N ind) <> not_missing ->
    field_value a promo (ind :: payload) (sentinel (type_name a)).

(** Step 3, one record: each field's value is extracted from the
    buffer at its recorded (offset, width). *)
Inductive extracted (buf : list byte) (promo : bool)
  : list Attribute -> list (nat * nat) -> list Value -> Prop :=
| extracted_nil : extracted buf promo [] [] []
| extracted_cons : forall a atts off sz meta bs v vs,
    read buf off sz = Some bs ->
    field_value a promo bs v ->
    extracted buf promo atts meta vs ->
    extracted buf promo (a :: atts) ((off, sz) :: meta) (v :: vs).

(** The two passes. *)
Definition two_pass_spec (atts : list Attribute) (buf : list byte)
           (promo : bool) (recs : list (list Value)) : Prop :=
  exists metas off,
    measured_all Schema_py.itemsize atts buf 0 metas off /\
    Forall2 (extracted buf promo atts) metas recs.

(** Pairs that follow one another from [start] to [finish]: each offset
    is the previous offset plus the previous width. *)
Fixpoint contiguous (start : nat) (pairs : list (nat * nat)) (finish : nat)
  : Prop :=
  match pairs with
  | [] => start = finish
  | (off, sz) :: rest => off = start /\ contiguous (start + sz) rest finish
  end.

(** The pairs partition the buffer: they follow one another from 0 to
    [len(buf)]. *)
Definition exact_partition (buf : list byte) (pairs : list (nat * nat)) : Prop :=
  contiguous 0 pairs (List.length buf).

Definition total_width (pairs : list (nat * nat)) : nat :=
  list_sum (map snd pairs).

(** The [k]-th pair holds the byte at position [p]. *)
Definition holds_byte (pairs : list (nat * nat)) (k p : nat) : Prop :=
  exists off sz, nth_error pairs k = Some (off, sz) /\ off <= p < off + sz.

(** The bytes one record takes when every field has a fixed width. *)
Definition fixed_itemsize (a : Attribute) : nat :=
  null_size a + match fixed_width (type_name a) with Some w => w | None => 0 end.

Definition record_width (atts : list Attribute) : nat :=
  list_sum (map fixed_itemsize atts).

(** The cell of record [r], field [i]. *)
Definition cell (recs : list (list Value)) (r i : nat) : Value :=
  nth i (nth r recs []) NpNone.

(** The bytes of field [i] of record [r]: the buffer at the pair the
    first pass recorded for it. *)
Definition field_bytes (atts : list Attribute) (buf : list byte) (r i : nat)
  : option (list byte) :=
  match first_pass Schema_py.itemsize atts buf with
  | Ok (_, metas) =>
      match nth_error (nth r metas []) i with
      | Some (off, sz) => read buf off sz
      | None => None
      end
  | _ => None
  end.

(** What [make_dims_unique] does to one dimension, given the names of
    the attributes: a dimension whose name collides gets its name with
    [_N] appended, for some [N] from 1 on, and keeps its bounds; any
    other dimension is left as it is. *)
Definition dim_renamed (att_names : list string) (d d' : Dimension) : Prop :=
  (In (dim_name d) att_names ->
   exists n, 1 <= n /\ d' = rename d (suffixed (dim_name d) n)) /\
  (~ In (dim_name d) att_names -> d' = d).

(** A field renamed. *)
Definition with_name (f : string -> string) (a : Attribute) : Attribute :=
  {| name := f (name a); type_name := type_name a; not_null := not_null a |}.

(** [DB._show_query] filled with the query, each single quote of the
    query escaped by a backslash. *)
Definition show_query (query : string) : string :=
  String.append "show('"
    (String.append (Py.replace_char "'"%char "\'" query) "', 'afl')").

(** The fields a fetch downloads: the attributes alone, or the
    dimensions made unique and put in front of the attributes. *)
Definition fetch_schema (atts_only : bool) (sch : Schema) : Schema :=
  if atts_only then sch else make_dims_atts (snd (make_dims_unique sch)).

(** The names listed in the [project(...)] the query is wrapped in:
    [itertools.chain(sch.dims, sch.atts)]. *)
Definition projected_names (sch : Schema) : list string :=
  map dim_name (dims sch) ++ map name (atts sch).

(** The request [_shim] sends: the credentials of SciDB are added to
    the parameters of the [cancel] and [execute_query] endpoints. *)
Definition shim_request (self : DB) (endpoint : Shim)
           (kwargs : list (string * Py.value)) : Request :=
  let kwargs' :=
    match _scidb_auth self with
    | Some ((_ :: _) as auth) =>
        if Shim_eqb endpoint cancel || Shim_eqb endpoint execute_query
        then Py.dict_update kwargs auth
        else kwargs
    | _ => kwargs
    end in
  {| req_url := scidb_url self; req_endpoint := endpoint;
     req_params := kwargs'; req_auth := _http_auth self;
     req_verify := verify self |}.

(** A schema and a result with every field renamed. *)
Definition rename_schema (f : string -> string) (s : Schema) : Schema :=
  {| sch_name := sch_name s; atts := map (with_name f) (atts s); dims := dims s |}.

Definition rename_result (f : string -> string) (r : iquery_result)
  : iquery_result :=
  match r with
  | RNone => RNone
  | RArray dt records => RArray (map (fun p => (f (fst p), snd p)) dt) records
  | RDataFrame columns =>
      RDataFrame (map (fun c => (f (fst (fst c)), snd (fst c), snd c)) columns)
  end.

(** *** The array of the doctests

    [foo<x:int64>[i=0:2]] holding [x = i]: the fields [i] (a dimension
    fetched as a not-null int64) and [x] (a nullable int64), and the
    buffer of its three records, each 8 bytes of [i], the indicator
    byte 255 and 8 bytes of [x]. *)
Definition doc_i : Attribute :=
  {| name := "i"; type_name := int64; not_null := true |}.

Definition doc_x : Attribute :=
  {| name := "x"; type_name := int64; not_null := false |}.

Definition doc_schema : Schema :=
  {| sch_name := Some "foo"%string;
     atts := [doc_x];
     dims := [{| dim_name := "i"; low_value := Some 0%Z; high_value := Some 2%Z |}] |}.

Definition doc_int64 (b : byte) : list byte :=
  [b; x00; x00; x00; x00; x00; x00; x00].

Definition doc_record (b : byte) : list byte :=
  doc_int64 b ++ [xff] ++ doc_int64 b.

Definition doc_buf : list byte :=
  doc_record x00 ++ doc_record x01 ++ doc_record x02.

(** The same buffer with the indicator of the last record set to 0. *)
Definition doc_buf_null : list byte :=
  doc_record x00 ++ doc_record x01 ++ doc_int64 x02 ++ [x00] ++ doc_int64 x02.

(** The schema of the doctest on colliding names,
    [apply(build(<x:int64 not null>[i=0:2], i), i, i)]. *)
Definition doc_collision_schema : Schema :=
  {| sch_name := None;
     atts := [{| name := "x"; type_name := int64; not_null := true |};
              {| name := "i"; type_name := int64; not_null := true |}];
     dims := [{| dim_name := "i"; low_value := Some 0%Z; high_value := Some 2%Z |}] |}.

(** A server that answers every request with the same bytes. *)
Definition doc_remote (content : list byte)
  : list Request -> Request -> option (list byte) :=
  fun _ _ => Some content.

Section Remote.

(** The Shim server: what it answers to a request, given the requests
    it has seen; [None] is an answer whose status makes
    [raise_for_status] raise. *)
Variable remote : list Request -> Request -> option (list byte).

(** [req.text]: the bytes of an answer decoded, by [requests], with the
    character set of the answer. *)
Variable text : list byte -> string.

(** [str.split()], a Python builtin. *)
Variable str_split : string -> list string.

(** Parts of [schema.py] that [iquery] only passes along. *)
Variable Schema_fromstring : string -> result Schema.
Variable Schema_format_h : Schema -> string.
Variable atts_fmt : Schema -> string.

(** [DB._shim]: the endpoint and the keyword arguments. *)
Definition _shim (self : DB) (endpoint : Shim)
           (kwargs : list (string * Py.value)) : M (list byte) :=
  fun log =>
    let req := shim_request self endpoint kwargs in
    match remote log req with
    | Some content => (Ok content, log ++ [req])
    | None => (Raise HTTPError, log ++ [req])
    end.

(** [DB.iquery_readlines(query)] *)
Definition iquery_readlines (self : DB) (query : string) : M (list string) :=
  (id <~ _shim self new_session [] ;;
   _ <~ _shim self execute_query
          [("id", Py.VStr (text id)); ("query", Py.VStr query);
           ("save", Py.VStr "tsv")]%string ;;
   r <~ _shim self read_bytes
          [("id", Py.VStr (text id)); ("n", Py.VInt 0)]%string ;;
   _ <~ _shim self release_session [("id", Py.VStr (text id))]%string ;;
   ret (str_split (text r)))%shim.

(** [DB.__init__].  A tuple of credentials is a list of strings;
    [None] and the empty tuple are the false values. *)
Definition DB_init (scidb_url : string)
           (scidb_auth http_auth : option (list string))
           (role namespace : option string) (verify : option bool) : M DB :=
  (h <~ match http_auth with
        | Some ((_ :: _) as t) =>
            match t with
            | [u; p] => ret (Some (mkDigest u p), Some (u, PASSWORD_PROVIDED))
            | _ => raise TypeError
            end
        | _ => ret (None, None)
        end ;;
   s <~ match scidb_auth with
        | Some (u :: rest) =>
            if negb (Py.startswith (Py.lower scidb_url) "https")
            then raise (Exception
                          (String.append "SciDB credentials can only be used "
                                         "with https connections"))
            else
              match rest with
              | p :: _ =>
                  ret (Some [("user", Py.VStr u); ("password", Py.VStr p)]%string,
                       Some (u, PASSWORD_PROVIDED))
              | [] => raise IndexError
              end
        | _ => ret (None, None)
        end ;;
   let self :=
     {| scidb_url := scidb_url; role := role; namespace := namespace;
        verify := verify;
        _http_auth := fst h; http_auth := snd h;
        _scidb_auth := fst s; scidb_auth := snd s;
        operators := [] |} in
   ops <~ iquery_readlines self "project(list('operators'), name)" ;;
   ret (set_operators self
          (Py.sort (ops ++ ["arrays"; "iquery"; "iquery_readlines"]%string))))%shim.

(** The [if not atts_only:] block of [iquery]: the query is wrapped
    in [cast] when dimensions were renamed, then in
    [project(apply(...))]. *)
Definition unpack_query (query : string) (sch : Schema) : string :=
  let r := make_dims_unique sch in
  let query1 :=
    if fst r
    then String.append "cast("
           (String.append query
              (String.append ", " (String.append (Schema_format_h (snd r)) ")")))
    else query in
  String.append "project(apply("
    (String.append query1
       (String.append ", "
          (String.append
             (Py.join ", "
                (map (fun d => String.append (dim_name d)
                                 (String.append ", " (dim_name d)))
                     (dims (snd r))))
             (String.append "), "
                (String.append (Py.join ", " (projected_names (snd r))) ")"))))).

(** [DB.iquery(query, fetch, atts_only, as_dataframe, dataframe_promo,
    schema)] *)
Definition iquery (self : DB) (query : string) (a : iquery_args)
  : M iquery_result :=
  (id <~ _shim self new_session [] ;;
   if fetch a then
     sch <~ match schema a with
            | Some (inl s) => ret s
            | Some (inr (String c s)) => lift (Schema_fromstring (String c s))
            | _ =>
                _ <~ _shim self execute_query
                       [("id", Py.VStr (text id));
                        ("query", Py.VStr (show_query query));
                        ("save", Py.VStr "tsv")]%string ;;
                r <~ _shim self read_bytes
                       [("id", Py.VStr (text id)); ("n", Py.VInt 0)]%string ;;
                lift (Schema_fromstring (text r))
            end ;;
     let query' := if atts_only a then query else unpack_query query sch in
     let sch' := fetch_schema (atts_only a) sch in
     _ <~ _shim self execute_query
            [("id", Py.VStr (text id)); ("query", Py.VStr query');
             ("save", Py.VStr (atts_fmt sch'))]%string ;;
     buf <~ _shim self read_bytes
              [("id", Py.VStr (text id)); ("n", Py.VInt 0)]%string ;;
     _ <~ _shim self release_session [("id", Py.VStr (text id))]%string ;;
     lift (iquery_records a sch' buf)
   else
     _ <~ _shim self execute_query
            [("id", Py.VStr (text id)); ("query", Py.VStr query);
             ("release", Py.VInt 1)]%string ;;
     ret RNone)%shim.

(** [class SciDB]: an unevaluated SciDB expression. *)
Record SciDB : Type := mkSciDB {
  db : DB;
  operator : string;
  args : list Py.value;
  is_lazy : bool
}.

(** [SciDB.__init__]: the connection, the operator, the positional arguments. *)
Definition SciDB_init (db : DB) (operator : string) (args : list Py.value)
  : SciDB :=
  {| db := db; operator := operator; args := args;
     is_lazy := negb (Py.contains ["create_array"; "remove"]%string
                                  (Py.lower operator)) |}.

Definition set_args (self : SciDB) (args : list Py.value) : SciDB :=
  {| db := db self; operator := operator self; args := args;
     is_lazy := is_lazy self |}.

(** [SciDB.__str__] *)
Definition SciDB_str (self : SciDB) : string :=
  String.append (operator self)
    (String.append "("
       (String.append (Py.join ", " (map Py.format (args self))) ")")).

(** What [SciDB.__call__] returns: the object itself, or what
    [iquery] returned. *)
Inductive call_result : Type :=
| ReturnedSelf
| Returned (r : iquery_result).

(** [SciDB.__call__] with its positional arguments: the object after the call, and the value
    returned. *)
Definition SciDB_call (self : SciDB) (call_args : list Py.value)
  : M (SciDB * call_result) :=
  let self1 := set_args self call_args in
  let self2 :=
    if Py.startswith (Py.lower (operator self1)) "create_array"
       && (List.length (args self1) <? 3)
    then set_args self1 (args self1 ++ [Py.VBool false])
    else self1 in
  if is_lazy self2 then ret (self2, ReturnedSelf)
  else
    (r <~ iquery (db self2) (SciDB_str self2) iquery_defaults ;;
     ret (self2, Returned r))%shim.

End Remote.

(** The text of an answer in a character set of one byte per character
    (ISO-8859-1), for which [Py.split] is [str.split()]. *)
Definition text_bytes (content : list byte) : string :=
  string_of_list_byte content.

(** *** The rest of [db.py] *)

(** [connect = DB] *)
Definition connect := DB_init.

(** [DB.__dir__] *)
Definition DB_dir (self : DB) : list string := operators self.

(** [class Arrays]: the proxy kept in [db.arrays]. *)
Record Arrays : Type := mkArrays {
  _db : DB;
  _schema : Schema
}.

(** [Arrays.__init__(db)] *)
Definition Arrays_init (db : DB) : Arrays :=
  {| _db := db;
     _schema :=
       {| sch_name := None;
          atts := [{| name := "name"; type_name := string_; not_null := true |}];
          dims := [{| dim_name := "i"; low_value := None; high_value := None |}] |} |}.

(** [Arrays.__getattr__(name)] *)
Definition Arrays_getattr (self : Arrays) (attr : string) : string := attr.

(** [Arrays.__dir__()] *)
Definition Arrays_dir (remote : list Request -> Request -> option (list byte))
           (text : list byte -> string) (str_split : string -> list string)
           (self : Arrays) : M (list string) :=
  iquery_readlines remote text str_split (_db self) "project(list(), name)".

(** The endpoints of a list of requests, in the order sent. *)
Definition endpoints (reqs : list Request) : list Shim := map req_endpoint reqs.

(** The endpoints [iquery_readlines] calls, and those [iquery] calls
    with [fetch]: with a schema at hand, and when the schema is asked
    from SciDB first. *)
Definition readlines_endpoints : list Shim :=
  [new_session; execute_query; read_bytes; release_session].

Definition fetch_endpoints (a : iquery_args) : list Shim :=
  match schema a with
  | Some (inl _) | Some (inr (String _ _)) =>
      [new_session; execute_query; read_bytes; release_session]
  | _ =>
      [new_session; execute_query; read_bytes;
       execute_query; read_bytes; release_session]
  end.

(** [d[k]] on a dictionary kept as an association list. *)
Fixpoint dict_get (d : list (string * Py.value)) (k : string) : option Py.value :=
  match d with
  | [] => None
  | (k', v) :: d' => if String.eqb k k' then Some v else dict_get d' k
  end.

(** Every single quote of [s] comes right after a backslash; [esc]
    tells whether the character before [s] is a backslash. *)
Fixpoint quotes_escaped (esc : bool) (s : string) : bool :=
  match s with
  | EmptyString => true
  | String c s' =>
      if Ascii.eqb c "'"%char then esc && quotes_escaped false s'
      else quotes_escaped (Ascii.eqb c "\"%char) s'
  end.

(** The user name of a tuple of credentials, [None] for a false value. *)
Definition auth_user (t : option (list string)) : option string :=
  match t with
  | Some (u :: _) => Some u
  | _ => None
  end.

(** *** Printing a connection and an expression *)

Section Printing.

(** [repr] of a [str], a Python builtin. *)
Variable repr_str : string -> string.

(** [Password_Placeholder.__repr__] *)
Definition Password_Placeholder_repr (p : Password_Placeholder) : string :=
  "PASSWORD_PROVIDED".

(** The values [DB.__iter__] yields: a string, [None], a boolean, or a
    pair of a user name and a placeholder. *)
Inductive shown : Type :=
| ShownStr (s : string)
| ShownNone
| ShownBool (b : bool)
| ShownAuth (user : string) (p : Password_Placeholder).

Definition shown_str (o : option string) : shown :=
  match o with Some s => ShownStr s | None => ShownNone end.

Definition shown_auth (o : option (string * Password_Placeholder)) : shown :=
  match o with Some (u, p) => ShownAuth u p | None => ShownNone end.

Definition shown_bool (o : option bool) : shown :=
  match o with Some b => ShownBool b | None => ShownNone end.

(** [DB.__iter__] *)
Definition DB_iter (self : DB) : list shown :=
  [ShownStr (scidb_url self); shown_auth (scidb_auth self);
   shown_auth (http_auth self); shown_str (role self);
   shown_str (namespace self); shown_bool (verify self)].

(** ['{!r}'.format(v)] *)
Definition shown_repr (v : shown) : string :=
  match v with
  | ShownStr s => repr_str s
  | ShownNone => "None"
  | ShownBool true => "True"
  | ShownBool false => "False"
  | ShownAuth u p =>
      String.append "("
        (String.append (repr_str u)
           (String.append ", " (String.append (Password_Placeholder_repr p) ")")))
  end.

(** ['{}'.format(v)]: a string is printed as it is, a tuple prints the
    [repr] of its items. *)
Definition shown_format (v : shown) : string :=
  match v with
  | ShownStr s => s
  | _ => shown_repr v
  end.

(** [DB.__repr__] *)
Definition DB_repr (self : DB) : string :=
  String.append "DB("
    (String.append (Py.join ", " (map shown_repr (DB_iter self))) ")").

Definition newline : string := String (ascii_of_nat 10) EmptyString.

(** [DB.__str__] *)
Definition DB_str (self : DB) : string :=
  Py.join newline
    [String.append "scidb_url  = '"
       (String.append (shown_format (ShownStr (scidb_url self))) "'");
     String.append "scidb_auth = " (shown_format (shown_auth (scidb_auth self)));
     String.append "http_auth  = " (shown_format (shown_auth (http_auth self)));
     String.append "role       = " (shown_format (shown_str (role self)));
     String.append "namespace  = " (shown_format (shown_str (namespace self)));
     String.append "verify     = " (shown_format (shown_bool (verify self)))].

(** [DB.__getattr__(name)]; the message prints the name of the class
    and the attribute with [repr]. *)
Definition DB_getattr (self : DB) (attr : string) : result SciDB :=
  if Py.contains (operators self) attr then Ok (SciDB_init self attr [])
  else Raise (AttributeError
                (String.append (repr_str "DB")
                   (String.append " object has no attribute " (repr_str attr)))).

(** ['{!r}'.format(i)] for an argument of an expression. *)
Definition value_repr (v : Py.value) : string :=
  match v with
  | Py.VStr s => repr_str s
  | _ => Py.format v
  end.

(** [SciDB.__repr__] *)
Definition SciDB_repr (self : SciDB) : string :=
  String.append "SciDB(db="
    (String.append (DB_repr (db self))
       (String.append ", operator="
          (String.append (repr_str (operator self))
             (String.append ", args=["
                (String.append (Py.join ", " (map value_repr (args self))) "])"))))).

End Printing.

(** A server answer to the listing of operators, and the connections
    [DB.__init__] builds from it: the one of the doctest [DB()], and one
    over https with the SciDB credentials [('foo', p)]. *)
Definition doc_operators_answer : list byte :=
  list_byte_of_string "aggregate apply xgrid".

Definition doc_operators : list string :=
  ["aggregate"; "apply"; "arrays"; "iquery"; "iquery_readlines"; "xgrid"]%string.

Definition doc_db : DB :=
  mkDB "http://localhost:8080" None None None None None None None doc_operators.

Definition doc_db_auth (p : string) : DB :=
  mkDB "https://localhost:8083" None None (Some false) None None
       (Some [("user", Py.VStr "foo"); ("password", Py.VStr p)]%string)
       (Some ("foo"%string, PASSWORD_PROVIDED)) doc_operators.

(** [repr] of a string that holds no quote, no backslash and only
    printable ASCII characters. *)
Definition repr_plain (s : string) : string :=
  String.append "'" (String.append s "'").

End Db.

(** * Properties *)

Import Schema_py Db.

(** ** The exception monad *)

Lemma bind_Ok_inv {A B : Type} (r : result A) (k : A -> result B) (b : B) :
  bind r k = Ok b -> exists a, r = Ok a /\ k a = Ok b.
Proof.
  destruct r as [a | e |]; simpl; intros H; try discriminate.
  exists a; split; [reflexivity | exact H].
Qed.

Lemma mapM_Ok_Forall2 {A B : Type} (f : A -> result B) (l : list A) (ys : list B) :
  mapM f l = Ok ys <-> Forall2 (fun x y => f x = Ok y) l ys.
Proof.
  revert ys; induction l as [| x l IH]; intros ys; simpl.
  - split; intros H.
    + injection H as <-. constructor.
    + inversion H; reflexivity.
  - split; intros H.
    + apply bind_Ok_inv in H as (y & Hy & H).
      apply bind_Ok_inv in H as (ys' & Hys & H).
      injection H as <-. constructor; [exact Hy | apply IH; exact Hys].
    + inversion H as [| x' y l' ys' Hy Hys]; subst.
      rewrite Hy; simpl. apply IH in Hys. rewrite Hys; reflexivity.
Qed.

Lemma mapM_app_Raise {A B : Type} (f : A -> result B) (l : list A) (x : A)
      (l' : list A) (e : exn) :
  (forall a, In a l -> exists b, f a = Ok b) ->
  f x = Raise e ->
  mapM f (l ++ x :: l') = Raise e.
Proof.
  intros Hl Hx; induction l as [| a l IH]; simpl.
  - rewrite Hx; reflexivity.
  - destruct (Hl a (or_introl eq_refl)) as (b & Hb). rewrite Hb; simpl.
    rewrite IH; [reflexivity |].
    intros a' Ha'; apply Hl; right; exact Ha'.
Qed.

(** ** The first loop of [iquery], for any [itemsize] *)

Section LoopFacts.

Context {Att : Type}.
Variable itemsize : Att -> list byte -> nat -> result nat.

(** The list [meta] a record starts with only gets longer. *)
Lemma scan_record_acc (atts : list Att) (buf : list byte) (off : nat)
      (acc : list (nat * nat)) :
  scan_record itemsize atts buf off acc =
  bind (scan_record itemsize atts buf off [])
       (fun r => Ok (fst r, acc ++ snd r)).
Proof.
  revert off acc; induction atts as [| a atts IH]; intros off acc; simpl.
  - rewrite app_nil_r; reflexivity.
  - destruct (itemsize a buf off) as [sz | e |]; simpl; try reflexivity.
    rewrite (IH (off + sz) (acc ++ [(off, sz)])).
    rewrite (IH (off + sz) [(off, sz)]).
    destruct (scan_record itemsize atts buf (off + sz) []) as [[o m] | e |];
      simpl; try reflexivity.
    rewrite <- app_assoc; reflexivity.
Qed.

Lemma scan_record_measured (atts : list Att) (buf : list byte) (off off' : nat)
      (meta : list (nat * nat)) :
  scan_record itemsize atts buf off [] = Ok (off', meta) <->
  measured itemsize buf atts off meta off'.
Proof.
  revert off off' meta; induction atts as [| a atts IH]; intros off off' meta.
  - simpl; split; intros H.
    + injection H as <- <-. constructor.
    + inversion H; reflexivity.
  - simpl; split; intros H.
    + apply bind_Ok_inv in H as (sz & Hsz & H).
      rewrite scan_record_acc in H.
      apply bind_Ok_inv in H as ([o m] & Hrec & H). simpl in H.
      injection H as <- <-.
      constructor; [exact Hsz | apply IH; exact Hrec].
    + inversion H as [| a' atts' o sz m o' Hsz Hrest]; subst.
      rewrite Hsz; simpl. rewrite scan_record_acc.
      apply IH in Hrest. rewrite Hrest; reflexivity.
Qed.

Lemma measured_deterministic (atts : list Att) (buf : list byte) (off : nat)
      (m1 m2 : list (nat * nat)) (o1 o2 : nat) :
  measured itemsize buf atts off m1 o1 ->
  measured itemsize buf atts off m2 o2 ->
  m1 = m2 /\ o1 = o2.
Proof.
  intros H1 H2.
  apply scan_record_measured in H1; apply scan_record_measured in H2.
  rewrite H1 in H2; injection H2 as <- <-; split; reflexivity.
Qed.

(** The pairs of one record follow one another, in as many pairs as
    there are fields. *)
Lemma measured_contiguous (atts : list Att) (buf : list byte) (off off' : nat)
      (meta : list (nat * nat)) :
  measured itemsize buf atts off meta off' ->
  contiguous off meta off' /\ List.length meta = List.length atts /\
  off <= off' /\ off + total_width meta = off'.
Proof.
  induction 1 as [off | a atts off sz meta off' Hsz Hrest IH]; simpl.
  - unfold total_width; simpl; repeat split; lia.
  - destruct IH as (Hc & Hl & Hle & Hsum).
    unfold total_width in *; simpl; repeat split; try lia; exact Hc.
Qed.

Lemma scan_done (fuel : nat) (atts : list Att) (buf : list byte) (off : nat)
      (acc : list (list (nat * nat))) :
  List.length buf <= off -> scan itemsize fuel atts buf off acc = Ok (off, acc).
Proof.
  intros H. destruct fuel; simpl;
    (destruct (Nat.ltb_spec off (List.length buf)); [lia | reflexivity]).
Qed.

Lemma scan_step (fuel : nat) (atts : list Att) (buf : list byte) (off : nat)
      (acc : list (list (nat * nat))) :
  off < List.length buf ->
  scan itemsize (S fuel) atts buf off acc =
  bind (scan_record itemsize atts buf off [])
       (fun r => scan itemsize fuel atts buf (fst r) (acc ++ [snd r])).
Proof.
  intros H. simpl.
  destruct (Nat.ltb_spec off (List.length buf)); [reflexivity | lia].
Qed.

Lemma scan_zero (atts : list Att) (buf : list byte) (off : nat)
      (acc : list (list (nat * nat))) :
  off < List.length buf -> scan itemsize 0 atts buf off acc = Diverge.
Proof.
  intros H. simpl.
  destruct (Nat.ltb_spec off (List.length buf)); [reflexivity | lia].
Qed.

(** What the loop returns is what the specification measures. *)
Lemma scan_measured (fuel : nat) (atts : list Att) (buf : list byte)
      (off off' : nat) (acc metas : list (list (nat * nat))) :
  scan itemsize fuel atts buf off acc = Ok (off', metas) ->
  exists ms, metas = acc ++ ms /\ measured_all itemsize atts buf off ms off'.
Proof.
  revert off acc; induction fuel as [| fuel IH]; intros off acc H.
  - destruct (Nat.lt_ge_cases off (List.length buf)) as [Hlt | Hge].
    + rewrite scan_zero in H by exact Hlt. discriminate.
    + rewrite scan_done in H by exact Hge. injection H as <- <-.
      exists []; rewrite app_nil_r; split; [reflexivity | constructor; exact Hge].
  - destruct (Nat.lt_ge_cases off (List.length buf)) as [Hlt | Hge].
    + rewrite scan_step in H by exact Hlt.
      apply bind_Ok_inv in H as ([o m] & Hrec & H). simpl in H.
      apply IH in H as (ms & -> & Hall).
      exists (m :: ms). rewrite <- app_assoc; split; [reflexivity |].
      econstructor; [exact Hlt | apply scan_record_measured; exact Hrec | exact Hall].
    + rewrite scan_done in H by exact Hge. injection H as <- <-.
      exists []; rewrite app_nil_r; split; [reflexivity | constructor; exact Hge].
Qed.

Lemma measured_all_scan (atts : list Att) (buf : list byte) (off off' : nat)
      (ms : list (list (nat * nat))) :
  measured_all itemsize atts buf off ms off' ->
  forall acc, scan itemsize (List.length ms) atts buf off acc = Ok (off', acc ++ ms).
Proof.
  induction 1 as [off Hge | off meta o' metas o'' Hlt Hm Hall IH]; intros acc.
  - rewrite scan_done by exact Hge. rewrite app_nil_r; reflexivity.
  - simpl List.length. rewrite scan_step by exact Hlt.
    apply scan_record_measured in Hm. rewrite Hm; simpl.
    rewrite IH, <- app_assoc; reflexivity.
Qed.

(** More fuel does not change a result. *)
Lemma scan_fuel_mono (n m : nat) (atts : list Att) (buf : list byte) (off : nat)
      (acc : list (list (nat * nat))) :
  n <= m ->
  scan itemsize n atts buf off acc <> Diverge ->
  scan itemsize m atts buf off acc = scan itemsize n atts buf off acc.
Proof.
  revert m off acc; induction n as [| n IH]; intros m off acc Hle Hnd.
  - destruct (Nat.lt_ge_cases off (List.length buf)) as [Hlt | Hge].
    + rewrite scan_zero in Hnd by exact Hlt. congruence.
    + rewrite !scan_done by exact Hge. reflexivity.
  - destruct m as [| m]; [lia |].
    destruct (Nat.lt_ge_cases off (List.length buf)) as [Hlt | Hge].
    + rewrite scan_step in Hnd |- * by exact Hlt. rewrite scan_step by exact Hlt.
      destruct (scan_record itemsize atts buf off []) as [[o mt] | e |];
        simpl in *; try reflexivity.
      apply IH; [lia | exact Hnd].
    + rewrite !scan_done by exact Hge. reflexivity.
Qed.

(** A turn of the loop that does not move the offset is repeated for
    ever. *)
Lemma scan_stuck (atts : list Att) (buf : list byte) (off : nat)
      (meta : list (nat * nat)) :
  off < List.length buf ->
  scan_record itemsize atts buf off [] = Ok (off, meta) ->
  forall fuel acc, scan itemsize fuel atts buf off acc = Diverge.
Proof.
  intros Hlt Hrec fuel; induction fuel as [| fuel IH]; intros acc.
  - apply scan_zero; exact Hlt.
  - rewrite scan_step by exact Hlt. rewrite Hrec; simpl. apply IH.
Qed.

(** A loop that ends at all ends within [len(buf) - off] turns. *)
Lemma scan_fuel_enough (fuel : nat) (atts : list Att) (buf : list byte)
      (off : nat) (acc : list (list (nat * nat))) :
  scan itemsize fuel atts buf off acc <> Diverge ->
  scan itemsize (List.length buf - off) atts buf off acc =
  scan itemsize fuel atts buf off acc.
Proof.
  revert off acc; induction fuel as [| fuel IH]; intros off acc Hnd.
  - destruct (Nat.lt_ge_cases off (List.length buf)) as [Hlt | Hge].
    + rewrite scan_zero in Hnd by exact Hlt. congruence.
    + rewrite !scan_done by exact Hge. reflexivity.
  - destruct (Nat.lt_ge_cases off (List.length buf)) as [Hlt | Hge].
    + destruct (List.length buf - off) as [| k] eqn:Hk; [lia |].
      rewrite scan_step in Hnd |- * by exact Hlt. rewrite scan_step by exact Hlt.
      destruct (scan_record itemsize atts buf off []) as [[o mt] | e |] eqn:Hrec;
        simpl in *; try reflexivity.
      pose proof (proj1 (scan_record_measured _ _ _ _ _) Hrec) as Hm.
      apply measured_contiguous in Hm as (_ & _ & Hle & _).
      destruct (Nat.eq_dec o off) as [-> | Hne].
      * exfalso; apply Hnd. apply (scan_stuck _ _ _ mt); assumption.
      * rewrite <- (IH o (acc ++ [mt]) Hnd).
        apply scan_fuel_mono; [lia |].
        rewrite (IH o (acc ++ [mt]) Hnd). exact Hnd.
    + rewrite !scan_done by exact Hge. reflexivity.
Qed.

(** The first pass returns exactly what the specification measures
    from offset 0. *)
Lemma first_pass_measured (atts : list Att) (buf : list byte) (off : nat)
      (metas : list (list (nat * nat))) :
  first_pass itemsize atts buf = Ok (off, metas) <->
  measured_all itemsize atts buf 0 metas off.
Proof.
  unfold first_pass; split; intros H.
  - apply scan_measured in H as (ms & -> & H). exact H.
  - pose proof (measured_all_scan _ _ _ _ _ H []) as Hs. simpl in Hs.
    rewrite <- Hs.
    replace (List.length buf) with (List.length buf - 0) at 1 by lia.
    apply scan_fuel_enough. rewrite Hs. discriminate.
Qed.

End LoopFacts.

(** ** Pairs that follow one another *)

Lemma contiguous_app (a b c : nat) (l1 l2 : list (nat * nat)) :
  contiguous a l1 b -> contiguous b l2 c -> contiguous a (l1 ++ l2) c.
Proof.
  revert a; induction l1 as [| [o w] l1 IH]; intros a H1 H2; simpl in *.
  - subst; exact H2.
  - destruct H1 as [-> H1]. split; [reflexivity | apply IH; assumption].
Qed.

Lemma total_width_app (l1 l2 : list (nat * nat)) :
  total_width (l1 ++ l2) = total_width l1 + total_width l2.
Proof.
  unfold total_width. rewrite map_app, list_sum_app. reflexivity.
Qed.

Lemma contiguous_total (s f : nat) (pairs : list (nat * nat)) :
  contiguous s pairs f -> s + total_width pairs = f.
Proof.
  revert s; induction pairs as [| [o w] pairs IH]; intros s H; simpl in *.
  - unfold total_width; simpl; lia.
  - destruct H as [-> H]. apply IH in H. unfold total_width in *; simpl; lia.
Qed.

Lemma contiguous_bounds (s f : nat) (pairs : list (nat * nat)) :
  contiguous s pairs f ->
  forall k o w, nth_error pairs k = Some (o, w) -> s <= o /\ o + w <= f.
Proof.
  revert s; induction pairs as [| [o' w'] pairs IH]; intros s H k o w Hk.
  - destruct k; discriminate.
  - simpl in H. destruct H as [-> H].
    pose proof (contiguous_total _ _ _ H) as Ht.
    destruct k as [| k]; simpl in Hk.
    + injection Hk as <- <-. lia.
    + destruct (IH _ H _ _ _ Hk). lia.
Qed.

(** No overlaps: a pair ends before any later pair starts. *)
Lemma contiguous_ordered (s f : nat) (pairs : list (nat * nat)) :
  contiguous s pairs f ->
  forall i j oi wi oj wj,
    i < j ->
    nth_error pairs i = Some (oi, wi) ->
    nth_error pairs j = Some (oj, wj) ->
    oi + wi <= oj.
Proof.
  revert s; induction pairs as [| [o' w'] pairs IH]; intros s H i j oi wi oj wj Hij Hi Hj.
  - destruct i; discriminate.
  - simpl in H. destruct H as [-> H].
    destruct j as [| j]; [lia |]. simpl in Hj.
    destruct i as [| i]; simpl in Hi.
    + injection Hi as <- <-.
      destruct (contiguous_bounds _ _ _ H _ _ _ Hj). lia.
    + apply (IH _ H i j oi wi oj wj); [lia | assumption | assumption].
Qed.

(** No gaps: every position between the two ends is in some pair. *)
Lemma contiguous_covers (s f : nat) (pairs : list (nat * nat)) :
  contiguous s pairs f ->
  forall p, s <= p < f -> exists k, holds_byte pairs k p.
Proof.
  revert s; induction pairs as [| [o w] pairs IH]; intros s H p Hp; simpl in H.
  - lia.
  - destruct H as [-> H].
    destruct (Nat.lt_ge_cases p (s + w)) as [Hlt | Hge].
    + exists 0, s, w. simpl; split; [reflexivity | lia].
    + destruct (IH _ H p) as (k & o' & w' & Hk & Hin); [lia |].
      exists (S k), o', w'. simpl; split; assumption.
Qed.

Lemma holds_byte_unique (s f : nat) (pairs : list (nat * nat)) (k1 k2 p : nat) :
  contiguous s pairs f ->
  holds_byte pairs k1 p -> holds_byte pairs k2 p -> k1 = k2.
Proof.
  intros H (o1 & w1 & Hk1 & Hp1) (o2 & w2 & Hk2 & Hp2).
  destruct (Nat.lt_total k1 k2) as [Hlt | [Heq | Hgt]]; [| exact Heq |].
  - pose proof (contiguous_ordered _ _ _ H _ _ _ _ _ _ Hlt Hk1 Hk2). lia.
  - pose proof (contiguous_ordered _ _ _ H _ _ _ _ _ _ Hgt Hk2 Hk1). lia.
Qed.

Section PartitionFacts.

Context {Att : Type}.
Variable itemsize : Att -> list byte -> nat -> result nat.

Lemma measured_all_contiguous (atts : list Att) (buf : list byte)
      (off off' : nat) (metas : list (list (nat * nat))) :
  measured_all itemsize atts buf off metas off' ->
  contiguous off (List.concat metas) off' /\ List.length buf <= off' /\
  Forall (fun meta => List.length meta = List.length atts) metas.
Proof.
  induction 1 as [off Hge | off meta o' metas o'' Hlt Hm Hall IH]; simpl.
  - repeat split; [exact Hge | constructor].
  - destruct IH as (Hc & Hlen & Hf).
    apply measured_contiguous in Hm as (Hc1 & Hl1 & _ & _).
    repeat split.
    + eapply contiguous_app; eassumption.
    + exact Hlen.
    + constructor; assumption.
Qed.

Lemma first_pass_total (atts : list Att) (buf : list byte) (off : nat)
      (metas : list (list (nat * nat))) :
  first_pass itemsize atts buf = Ok (off, metas) ->
  total_width (List.concat metas) = off.
Proof.
  intros H. apply first_pass_measured in H.
  apply measured_all_contiguous in H as (Hc & _ & _).
  apply contiguous_total in Hc. exact Hc.
Qed.

(** C8, as amended.  When the first pass completes, the recorded
    (offset, width) pairs start at 0 and each offset is the previous
    offset plus the previous width, so the offsets never decrease and
    no two pairs overlap; every byte of the buffer lies in exactly one
    pair; the pairs end at or after the end of the buffer, and they
    partition the buffer exactly when, and only when, the widths sum to
    its length. *)
Theorem C8_offsets_contiguous (atts : list Att) (buf : list byte) (off : nat)
        (metas : list (list (nat * nat))) :
  first_pass itemsize atts buf = Ok (off, metas) ->
  contiguous 0 (List.concat metas) off /\
  (forall i j oi wi oj wj,
      i < j ->
      nth_error (List.concat metas) i = Some (oi, wi) ->
      nth_error (List.concat metas) j = Some (oj, wj) ->
      oi <= oj /\ oi + wi <= oj) /\
  (forall p, p < List.length buf ->
             exists k, holds_byte (List.concat metas) k p /\
                       forall k', holds_byte (List.concat metas) k' p -> k' = k) /\
  List.length buf <= off /\
  total_width (List.concat metas) = off /\
  (exact_partition buf (List.concat metas) <->
   total_width (List.concat metas) = List.length buf).
Proof.
  intros H. apply first_pass_measured in H.
  apply measured_all_contiguous in H as (Hc & Hlen & _).
  pose proof (contiguous_total _ _ _ Hc) as Ht. simpl in Ht.
  split; [exact Hc |].
  split.
  { intros i j oi wi oj wj Hij Hi Hj.
    pose proof (contiguous_ordered _ _ _ Hc _ _ _ _ _ _ Hij Hi Hj). lia. }
  repeat split.
  - intros p Hp.
    destruct (contiguous_covers _ _ _ Hc p) as (k & Hk); [lia |].
    exists k; split; [exact Hk |].
    intros k' Hk'. exact (holds_byte_unique _ _ _ _ _ _ Hc Hk' Hk).
  - exact Hlen.
  - exact Ht.
  - unfold exact_partition; intros Hp.
    apply contiguous_total in Hp. exact Hp.
  - unfold exact_partition; intros Hw. rewrite <- Hw, Ht. exact Hc.
Qed.

End PartitionFacts.

(** ** The methods of [Attribute] *)

Lemma read_Some (buf : list byte) (off sz : nat) (bs : list byte) :
  read buf off sz = Some bs <->
  off + sz <= List.length buf /\ bs = firstn sz (skipn off buf).
Proof.
  unfold read. destruct (Nat.leb_spec (off + sz) (List.length buf)) as [Hle | Hgt].
  - split.
    + intros H; injection H as <-. split; [exact Hle | reflexivity].
    + intros [_ ->]; reflexivity.
  - split; [discriminate | intros [Hle _]; lia].
Qed.

Lemma read_None (buf : list byte) (off sz : nat) :
  read buf off sz = None <-> List.length buf < off + sz.
Proof.
  unfold read. destruct (Nat.leb_spec (off + sz) (List.length buf)) as [Hle | Hgt].
  - split; [discriminate | lia].
  - split; [intros _; exact Hgt | reflexivity].
Qed.

Lemma read_length (buf : list byte) (off sz : nat) (bs : list byte) :
  read buf off sz = Some bs -> List.length bs = sz.
Proof.
  intros H. apply read_Some in H as [Hle ->].
  apply firstn_length_le. rewrite length_skipn. lia.
Qed.

Lemma itemsize_null_size (a : Attribute) (buf : list byte) (off sz : nat) :
  itemsize a buf off = Ok sz -> null_size a <= sz.
Proof.
  unfold itemsize. destruct (fixed_width (type_name a)) as [w |].
  - intros H; injection H as <-. lia.
  - destruct (read buf (off + null_size a) 4); [| discriminate].
    intros H; injection H as <-. lia.
Qed.

(** [frombytes] returns exactly the values the specification allows
    for the bytes at (offset, width). *)
Lemma frombytes_field_value (a : Attribute) (buf : list byte) (off sz : nat)
      (promo : bool) (v : Value) :
  frombytes a buf off sz promo = Ok v <->
  exists bs, read buf off sz = Some bs /\ field_value a promo bs v.
Proof.
  unfold frombytes. split.
  - destruct (read buf off sz) as [bs |]; [| discriminate].
    intros H. exists bs; split; [reflexivity |].
    destruct (not_null a) eqn:Hnn.
    + injection H as <-. constructor; exact Hnn.
    + destruct bs as [| ind payload]; [discriminate |].
      destruct promo.
      * injection H as <-.
        destruct (Z.eqb_spec (Z.of_N (Byte.to_N ind)) not_missing) as [He | Hne].
        -- apply field_nullable_present; auto.
        -- apply field_nullable_absent; auto.
      * injection H as <-. apply field_nullable_raw; auto.
  - intros (bs & -> & Hv).
    inversion Hv as [bs' Hnn | ind payload Hnn Hp | ind payload Hnn Hp Hi
                     | ind payload Hnn Hp Hi]; subst; rewrite Hnn.
    + reflexivity.
    + reflexivity.
    + rewrite Hi, Z.eqb_refl. reflexivity.
    + destruct (Z.eqb_spec (Z.of_N (Byte.to_N ind)) not_missing); [contradiction |].
      reflexivity.
Qed.

Lemma frombytes_overrun (a : Attribute) (buf : list byte) (off sz : nat)
      (promo : bool) :
  List.length buf < off + sz ->
  frombytes a buf off sz promo = Raise TruncatedBuffer.
Proof.
  intros H. unfold frombytes. apply read_None in H. rewrite H. reflexivity.
Qed.

Lemma frombytes_in_bounds (a : Attribute) (buf : list byte) (off sz : nat)
      (promo : bool) :
  off + sz <= List.length buf -> null_size a <= sz ->
  exists v, frombytes a buf off sz promo = Ok v.
Proof.
  intros Hle Hns. unfold frombytes.
  destruct (read buf off sz) as [bs |] eqn:Hr.
  - destruct (not_null a) eqn:Hnn; [eexists; reflexivity |].
    apply read_length in Hr. unfold null_size in Hns. rewrite Hnn in Hns.
    destruct bs as [| ind payload]; [simpl in Hr; lia |].
    destruct promo; eexists; reflexivity.
  - apply read_None in Hr. lia.
Qed.

(** ** The second loop of [iquery] *)

Lemma extract_extracted (atts : list Attribute) (meta : list (nat * nat))
      (buf : list byte) (promo : bool) (vs : list Value) :
  List.length meta = List.length atts ->
  extract frombytes atts meta buf promo = Ok vs <->
  extracted buf promo atts meta vs.
Proof.
  revert meta vs; induction atts as [| a atts IH]; intros meta vs Hlen.
  - destruct meta; [| discriminate]. simpl. split; intros H.
    + injection H as <-. constructor.
    + inversion H; reflexivity.
  - destruct meta as [| [off sz] meta]; [discriminate |].
    simpl in Hlen. injection Hlen as Hlen. simpl. split; intros H.
    + apply bind_Ok_inv in H as (v & Hv & H).
      apply bind_Ok_inv in H as (vs' & Hvs & H). injection H as <-.
      apply frombytes_field_value in Hv as (bs & Hr & Hf).
      econstructor; [exact Hr | exact Hf | apply IH; assumption].
    + inversion H as [| a' atts' o s m bs v vs' Hr Hf Hrest]; subst.
      assert (Hv : frombytes a buf off sz promo = Ok v)
        by (apply frombytes_field_value; exists bs; split; assumption).
      rewrite Hv; simpl. apply IH in Hrest; [| exact Hlen].
      rewrite Hrest; reflexivity.
Qed.

Lemma second_pass_extracted (atts : list Attribute) (buf : list byte)
      (promo : bool) (metas : list (list (nat * nat))) (recs : list (list Value)) :
  Forall (fun meta => List.length meta = List.length atts) metas ->
  second_pass frombytes atts metas buf promo = Ok recs <->
  Forall2 (extracted buf promo atts) metas recs.
Proof.
  unfold second_pass. intros Hf. rewrite mapM_Ok_Forall2.
  revert recs; induction Hf as [| meta metas Hm Hf IH]; intros recs.
  - split; intros H; inversion H; constructor.
  - split; intros H; inversion H as [| m r ms rs Hr Hrest]; subst;
      (constructor; [apply (extract_extracted _ _ _ _ _ Hm); exact Hr
                    | apply IH; exact Hrest]).
Qed.

Lemma decode_Ok_inv (atts : list Attribute) (buf : list byte) (promo : bool)
      (recs : list (list Value)) :
  iquery_decode atts buf promo = Ok recs ->
  exists metas off,
    first_pass itemsize atts buf = Ok (off, metas) /\
    Forall2 (extracted buf promo atts) metas recs.
Proof.
  unfold iquery_decode, decode. intros H.
  apply bind_Ok_inv in H as ([off metas] & Hfp & Hsp). simpl in Hsp.
  exists metas, off. split; [exact Hfp |].
  apply first_pass_measured in Hfp.
  apply measured_all_contiguous in Hfp as (_ & _ & Hf).
  apply (second_pass_extracted _ _ _ _ _ Hf). exact Hsp.
Qed.

(** C1.  The decoder of [iquery] returns a list of records exactly when
    the two passes of the specification produce it: a first pass that,
    from offset 0 and until the offset reaches the buffer length, takes
    the fields in descriptor order, computes the width of each at the
    current offset, records the (offset, width) pair and advances by the
    width; a second pass that extracts each field from the buffer at its
    recorded pair, a nullable field being split into the null-indicator
    byte and the remaining value bytes. *)
Theorem C1_decode_two_passes (atts : list Attribute) (buf : list byte)
        (promo : bool) (recs : list (list Value)) :
  iquery_decode atts buf promo = Ok recs <-> two_pass_spec atts buf promo recs.
Proof.
  unfold two_pass_spec. split.
  - intros H. apply decode_Ok_inv in H as (metas & off & Hfp & Hx).
    exists metas, off. split; [apply first_pass_measured; exact Hfp | exact Hx].
  - unfold iquery_decode, decode. intros (metas & off & Hm & Hx).
    pose proof (proj2 (first_pass_measured _ _ _ _ _) Hm) as Hfp.
    rewrite Hfp; simpl.
    apply measured_all_contiguous in Hm as (_ & _ & Hf).
    apply (second_pass_extracted _ _ _ _ _ Hf). exact Hx.
Qed.

(** ** Buffers that the widths do not consume exactly *)

Lemma measured_all_le (atts : list Attribute) (buf : list byte) (off off' : nat)
      (metas : list (list (nat * nat))) :
  measured_all itemsize atts buf off metas off' -> off <= off'.
Proof.
  intros H. apply measured_all_contiguous in H as (Hc & _ & _).
  apply contiguous_total in Hc. lia.
Qed.

Lemma extract_in_bounds (atts : list Attribute) (buf : list byte) (off off' : nat)
      (meta : list (nat * nat)) (promo : bool) :
  measured itemsize buf atts off meta off' ->
  off' <= List.length buf ->
  exists vs, extract frombytes atts meta buf promo = Ok vs.
Proof.
  induction 1 as [off | a atts off sz meta off' Hsz Hrest IH]; intros Hle; simpl.
  - eexists; reflexivity.
  - pose proof (measured_contiguous _ _ _ _ _ _ Hrest) as (_ & _ & Hmono & _).
    destruct (frombytes_in_bounds a buf off sz promo) as (v & Hv);
      [lia | eapply itemsize_null_size; exact Hsz |].
    destruct (IH Hle) as (vs & Hvs).
    rewrite Hv, Hvs. simpl. eexists; reflexivity.
Qed.

Lemma extract_overrun (atts : list Attribute) (buf : list byte) (off off' : nat)
      (meta : list (nat * nat)) (promo : bool) :
  measured itemsize buf atts off meta off' ->
  off <= List.length buf -> List.length buf < off' ->
  extract frombytes atts meta buf promo = Raise TruncatedBuffer.
Proof.
  induction 1 as [off | a atts off sz meta off' Hsz Hrest IH]; intros Hstart Hover; simpl.
  - lia.
  - destruct (Nat.le_gt_cases (off + sz) (List.length buf)) as [Hin | Hout].
    + destruct (frombytes_in_bounds a buf off sz promo) as (v & Hv);
        [exact Hin | eapply itemsize_null_size; exact Hsz |].
      rewrite Hv; simpl. rewrite (IH Hin Hover). reflexivity.
    + rewrite frombytes_overrun by exact Hout. reflexivity.
Qed.

Lemma second_pass_overrun (atts : list Attribute) (buf : list byte)
      (off off' : nat) (metas : list (list (nat * nat))) (promo : bool) :
  measured_all itemsize atts buf off metas off' ->
  off <= List.length buf -> List.length buf < off' ->
  second_pass frombytes atts metas buf promo = Raise TruncatedBuffer.
Proof.
  unfold second_pass.
  induction 1 as [off Hge | off meta o' metas o'' Hlt Hm Hall IH];
    intros Hstart Hover; simpl.
  - lia.
  - destruct (Nat.le_gt_cases o' (List.length buf)) as [Hin | Hout].
    + destruct (extract_in_bounds _ _ _ _ _ promo Hm Hin) as (vs & Hvs).
      rewrite Hvs; simpl. rewrite (IH Hin Hover). reflexivity.
    + rewrite (extract_overrun _ _ _ _ _ promo Hm Hstart Hout). reflexivity.
Qed.

Lemma second_pass_in_bounds (atts : list Attribute) (buf : list byte)
      (off off' : nat) (metas : list (list (nat * nat))) (promo : bool) :
  measured_all itemsize atts buf off metas off' ->
  off' <= List.length buf ->
  exists recs, second_pass frombytes atts metas buf promo = Ok recs /\
               List.length recs = List.length metas.
Proof.
  unfold second_pass.
  induction 1 as [off Hge | off meta o' metas o'' Hlt Hm Hall IH]; intros Hle; simpl.
  - exists []; split; reflexivity.
  - pose proof (measured_all_le _ _ _ _ _ Hall) as Hmono.
    destruct (extract_in_bounds _ _ _ _ _ promo Hm) as (vs & Hvs); [lia |].
    destruct (IH Hle) as (recs & Hrecs & Hlen).
    rewrite Hvs, Hrecs; simpl. exists (vs :: recs); split; [reflexivity |].
    simpl; rewrite Hlen; reflexivity.
Qed.

Lemma decode_overrun (atts : list Attribute) (buf : list byte) (promo : bool)
      (off : nat) (metas : list (list (nat * nat))) :
  first_pass itemsize atts buf = Ok (off, metas) ->
  off <> List.length buf ->
  iquery_decode atts buf promo = Raise TruncatedBuffer.
Proof.
  intros Hfp Hne. unfold iquery_decode, decode. rewrite Hfp; simpl.
  apply first_pass_measured in Hfp.
  pose proof (measured_all_contiguous _ _ _ _ _ _ Hfp) as (_ & Hge & _).
  apply (second_pass_overrun _ _ _ _ _ _ Hfp); lia.
Qed.

(** C2.  When the widths the first pass measured do not add up to the
    length of the buffer (the buffer ends inside a field of the last
    record), the decode raises TruncatedBuffer: no record list is
    returned, and [iquery] builds neither an array nor a DataFrame. *)
Theorem C2_truncated_buffer_fails (a : iquery_args) (sch : Schema)
        (buf : list byte) (off : nat) (metas : list (list (nat * nat))) :
  first_pass itemsize (atts sch) buf = Ok (off, metas) ->
  total_width (List.concat metas) <> List.length buf ->
  (forall promo, iquery_decode (atts sch) buf promo = Raise TruncatedBuffer) /\
  iquery_records a sch buf = Raise TruncatedBuffer.
Proof.
  intros Hfp Hw.
  rewrite (first_pass_total _ _ _ _ _ Hfp) in Hw.
  split.
  - intros promo. exact (decode_overrun _ _ promo _ _ Hfp Hw).
  - unfold iquery_records. rewrite (decode_overrun _ _ _ _ _ Hfp Hw). reflexivity.
Qed.

(** ** Fixed-width records *)

Lemma fixed_itemsize_ok (a : Attribute) (buf : list byte) (off : nat) :
  is_fixed a = true -> itemsize a buf off = Ok (fixed_itemsize a).
Proof.
  unfold is_fixed, itemsize, fixed_itemsize.
  destruct (fixed_width (type_name a)); [reflexivity | discriminate].
Qed.

Lemma fixed_itemsize_pos (a : Attribute) :
  is_fixed a = true -> 1 <= fixed_itemsize a.
Proof.
  unfold is_fixed, fixed_itemsize.
  destruct (type_name a); simpl; try discriminate; lia.
Qed.

Lemma record_width_pos (atts : list Attribute) :
  atts <> [] -> forallb is_fixed atts = true -> 1 <= record_width atts.
Proof.
  destruct atts as [| a atts]; [congruence |]. intros _ H. simpl in H.
  apply andb_prop in H as [Ha _]. apply fixed_itemsize_pos in Ha.
  unfold record_width; simpl. lia.
Qed.

Lemma measured_fixed (atts : list Attribute) (buf : list byte) (off : nat) :
  forallb is_fixed atts = true ->
  exists meta, measured itemsize buf atts off meta (off + record_width atts).
Proof.
  revert off; induction atts as [| a atts IH]; intros off H.
  - exists []. unfold record_width; simpl. rewrite Nat.add_0_r. constructor.
  - simpl in H. apply andb_prop in H as [Ha Hrest].
    destruct (IH (off + fixed_itemsize a) Hrest) as (meta & Hm).
    exists ((off, fixed_itemsize a) :: meta).
    unfold record_width in *; simpl. rewrite Nat.add_assoc.
    constructor; [apply fixed_itemsize_ok; exact Ha | exact Hm].
Qed.

Lemma measured_all_fixed (atts : list Attribute) (buf : list byte) :
  forallb is_fixed atts = true -> 1 <= record_width atts ->
  forall n off, List.length buf - off <= n ->
  exists metas off', measured_all itemsize atts buf off metas off'.
Proof.
  intros Hfix Hpos n; induction n as [| n IH]; intros off Hn.
  - exists [], off. constructor. lia.
  - destruct (Nat.le_gt_cases (List.length buf) off) as [Hge | Hlt].
    + exists [], off. constructor. exact Hge.
    + destruct (measured_fixed atts buf off Hfix) as (meta & Hm).
      destruct (IH (off + record_width atts)) as (metas & off' & Hall); [lia |].
      exists (meta :: metas), off'. econstructor; eassumption.
Qed.

Lemma measured_all_fixed_count (atts : list Attribute) (buf : list byte)
      (off off' : nat) (metas : list (list (nat * nat))) :
  forallb is_fixed atts = true ->
  measured_all itemsize atts buf off metas off' ->
  off' = off + record_width atts * List.length metas /\
  (metas <> [] -> off + record_width atts * (List.length metas - 1) < List.length buf).
Proof.
  intros Hfix; induction 1 as [off Hge | off meta o' metas o'' Hlt Hm Hall IH].
  - simpl. split; [lia | congruence].
  - destruct (measured_fixed atts buf off Hfix) as (meta' & Hm').
    destruct (measured_deterministic _ _ _ _ _ _ _ _ Hm Hm') as [_ ->].
    destruct IH as (-> & Hlast). simpl List.length. split; [lia |].
    intros _. destruct metas as [| m metas].
    + simpl. lia.
    + assert (Hne : m :: metas <> []) by discriminate.
      specialize (Hlast Hne). simpl List.length in *. nia.
Qed.

(** C4.  With fixed-width fields only, the buffer decodes into
    [len(buf) / W] records when the record width [W] divides its length,
    and the decode raises TruncatedBuffer when it does not. *)
Theorem C4_fixed_width_record_count (atts : list Attribute) (buf : list byte)
        (promo : bool) :
  atts <> [] -> forallb is_fixed atts = true ->
  (List.length buf mod record_width atts = 0 ->
   exists recs, iquery_decode atts buf promo = Ok recs /\
                List.length recs = List.length buf / record_width atts) /\
  (List.length buf mod record_width atts <> 0 ->
   iquery_decode atts buf promo = Raise TruncatedBuffer).
Proof.
  intros Hne Hfix.
  pose proof (record_width_pos atts Hne Hfix) as Hpos.
  destruct (measured_all_fixed atts buf Hfix Hpos (List.length buf) 0)
    as (metas & off & Hall); [lia |].
  pose proof (measured_all_fixed_count _ _ _ _ _ Hfix Hall) as (Hoff & Hlast).
  pose proof (measured_all_contiguous _ _ _ _ _ _ Hall) as (_ & Hge & _).
  pose proof (proj2 (first_pass_measured _ _ _ _ _) Hall) as Hfp.
  pose proof (Nat.div_mod_eq (List.length buf) (record_width atts)) as Hdm.
  pose proof (Nat.mod_upper_bound (List.length buf) (record_width atts)) as Hub.
  simpl in Hoff.
  split; intros Hmod.
  - assert (Hcount : List.length metas = List.length buf / record_width atts).
    { rewrite Hmod in Hdm.
      destruct metas as [| m metas].
      - simpl in *. nia.
      - assert (Hne' : m :: metas <> []) by discriminate.
        specialize (Hlast Hne'). simpl List.length in *. nia. }
    destruct (second_pass_in_bounds atts buf 0 off metas promo Hall)
      as (recs & Hsp & Hlen).
    { rewrite Hoff, Hcount. rewrite Hmod in Hdm. lia. }
    exists recs. unfold iquery_decode, decode. rewrite Hfp; simpl.
    split; [exact Hsp | congruence].
  - apply (decode_overrun _ _ promo off metas Hfp).
    intros Heq. apply Hmod. rewrite <- Heq, Hoff, Nat.mul_comm.
    apply Nat.Div0.mod_mul.
Qed.

(** ** The cells of the decoded records *)

Lemma Forall2_nth_error_l {A B : Type} (R : A -> B -> Prop) (l : list A)
      (l' : list B) (n : nat) (x : A) :
  Forall2 R l l' -> nth_error l n = Some x ->
  exists y, nth_error l' n = Some y /\ R x y.
Proof.
  intros H; revert n; induction H as [| a b l l' Hab H IH]; intros n Hn.
  - destruct n; discriminate.
  - destruct n as [| n]; simpl in *.
    + injection Hn as <-. exists b; split; [reflexivity | exact Hab].
    + apply IH; exact Hn.
Qed.

Lemma nth_error_cell (recs : list (list Value)) (r i : nat) (rec : list Value)
      (v : Value) :
  nth_error recs r = Some rec -> nth_error rec i = Some v -> cell recs r i = v.
Proof.
  intros Hr Hi. unfold cell.
  rewrite (nth_error_nth recs r [] Hr). apply nth_error_nth. exact Hi.
Qed.

Lemma nth_error_column (recs : list (list Value)) (r i : nat) :
  r < List.length recs -> nth_error (column i recs) r = Some (cell recs r i).
Proof.
  intros Hr. unfold column, cell.
  destruct (nth_error recs r) as [rec |] eqn:Hrec.
  - rewrite (map_nth_error _ _ _ Hrec). rewrite (nth_error_nth recs r [] Hrec).
    reflexivity.
  - apply nth_error_None in Hrec. lia.
Qed.

Lemma nth_error_from_records_at (k : nat) (dt : list (string * DType))
      (recs : list (list Value)) (i : nat) (n : string) (t : DType) :
  nth_error dt i = Some (n, t) ->
  nth_error (from_records_at k dt recs) i = Some (n, t, column (k + i) recs).
Proof.
  revert k i; induction dt as [| [n' t'] dt IH]; intros k i Hi.
  - destruct i; discriminate.
  - destruct i as [| i]; simpl in *.
    + injection Hi as <- <-. rewrite Nat.add_0_r. reflexivity.
    + rewrite (IH (S k) i Hi). rewrite Nat.add_succ_r. reflexivity.
Qed.

Lemma extracted_nth (buf : list byte) (promo : bool) (atts : list Attribute)
      (meta : list (nat * nat)) (vs : list Value) (i : nat) (a : Attribute) :
  extracted buf promo atts meta vs ->
  nth_error atts i = Some a ->
  exists off sz bs v,
    nth_error meta i = Some (off, sz) /\ nth_error vs i = Some v /\
    read buf off sz = Some bs /\ field_value a promo bs v.
Proof.
  intros H; revert i; induction H as [| a' atts off sz meta bs v vs Hr Hf Hrest IH];
    intros i Hi.
  - destruct i; discriminate.
  - destruct i as [| i]; simpl in *.
    + injection Hi as <-. exists off, sz, bs, v. repeat split; assumption.
    + apply IH; exact Hi.
Qed.

(** Each cell of a decoded record is the value of the bytes the first
    pass recorded for it. *)
Lemma decode_cells (atts : list Attribute) (buf : list byte) (promo : bool)
      (recs : list (list Value)) (r i : nat) (a : Attribute) :
  iquery_decode atts buf promo = Ok recs ->
  r < List.length recs ->
  nth_error atts i = Some a ->
  exists bs, field_bytes atts buf r i = Some bs /\
             field_value a promo bs (cell recs r i).
Proof.
  intros Hd Hr Hi. apply decode_Ok_inv in Hd as (metas & off & Hfp & Hx).
  pose proof (Forall2_length Hx) as Hlen.
  destruct (nth_error metas r) as [meta |] eqn:Hmeta;
    [| apply nth_error_None in Hmeta; lia].
  destruct (Forall2_nth_error_l _ _ _ _ _ Hx Hmeta) as (rec & Hrec & Hex).
  destruct (extracted_nth _ _ _ _ _ _ _ Hex Hi) as (o & sz & bs & v & Hp & Hv & Hrd & Hf).
  exists bs. split.
  - unfold field_bytes. rewrite Hfp. rewrite (nth_error_nth metas r [] Hmeta).
    rewrite Hp. exact Hrd.
  - rewrite (nth_error_cell _ _ _ _ _ Hrec Hv). exact Hf.
Qed.

(** ** Nullable fields *)

Lemma field_value_nullable (a : Attribute) (promo : bool) (bs : list byte)
      (v : Value) :
  not_null a = false -> field_value a promo bs v ->
  exists ind payload,
    bs = ind :: payload /\
    v = if promo
        then (if (Z.of_N (Byte.to_N ind) =? not_missing)%Z
              then widen (type_name a) (decode_val (type_name a) payload)
              else sentinel (type_name a))
        else NpPair (Z.of_N (Byte.to_N ind)) (decode_val (type_name a) payload).
Proof.
  intros Hnn Hv.
  inversion Hv as [bs' Hnn' | ind payload _ Hp | ind payload _ Hp Hi
                   | ind payload _ Hp Hi]; subst.
  - congruence.
  - exists ind, payload; split; reflexivity.
  - exists ind, payload; split; [reflexivity |]. rewrite Hi, Z.eqb_refl. reflexivity.
  - exists ind, payload; split; [reflexivity |].
    destruct (Z.eqb_spec (Z.of_N (Byte.to_N ind)) not_missing); [contradiction |].
    reflexivity.
Qed.

Lemma iquery_records_Ok_inv (a : iquery_args) (sch : Schema) (buf : list byte)
      (res : iquery_result) :
  iquery_records a sch buf = Ok res ->
  exists recs,
    iquery_decode (atts sch) buf (as_dataframe a && dataframe_promo a) = Ok recs /\
    res = (let dt := if as_dataframe a && dataframe_promo a
                     then get_promo_atts_dtype sch else atts_dtype sch in
           if as_dataframe a then RDataFrame (from_records dt recs)
           else RArray dt recs).
Proof.
  unfold iquery_records. intros H.
  apply bind_Ok_inv in H as (recs & Hd & H). injection H as <-.
  exists recs; split; [exact Hd | reflexivity].
Qed.

Lemma from_records_column (f : Attribute -> DType) (atts : list Attribute)
      (recs : list (list Value)) (i : nat) (a : Attribute) :
  nth_error atts i = Some a ->
  nth_error (from_records (map (fun a => (name a, f a)) atts) recs) i =
  Some (name a, f a, column i recs).
Proof.
  intros Hi. unfold from_records.
  apply (nth_error_from_records_at 0).
  apply (map_nth_error (fun a => (name a, f a)) _ _ Hi).
Qed.




(** C6.  [dataframe_promo] defaults to true.  When it is false, the
    records are decoded without promotion, the dtype is the plain one, in
    which a nullable field is a (null, val) record, and every cell of a
    nullable field -- in the array, and unchanged in the column of the
    DataFrame -- is the pair of the indicator byte and the payload
    interpreted per the field's type. *)
Theorem C6_promotion_flag (a : iquery_args) (sch : Schema) (buf : list byte)
        (res : iquery_result) :
  dataframe_promo a = false ->
  iquery_records a sch buf = Ok res ->
  dataframe_promo iquery_defaults = true /\
  exists recs,
    iquery_decode (atts sch) buf false = Ok recs /\
    res = (if as_dataframe a
           then RDataFrame (from_records (atts_dtype sch) recs)
           else RArray (atts_dtype sch) recs) /\
    forall r i att,
      r < List.length recs ->
      nth_error (atts sch) i = Some att -> not_null att = false ->
      exists ind payload,
        field_bytes (atts sch) buf r i = Some (ind :: payload) /\
        cell recs r i =
        NpPair (Z.of_N (Byte.to_N ind)) (decode_val (type_name att) payload) /\
        nth_error (from_records (atts_dtype sch) recs) i =
        Some (name att, D_null_val (val_dtype (type_name att)), column i recs) /\
        nth_error (column i recs) r =
        Some (NpPair (Z.of_N (Byte.to_N ind)) (decode_val (type_name att) payload)).
Proof.
  intros Hpromo Hres. split; [reflexivity |].
  apply iquery_records_Ok_inv in Hres as (recs & Hd & ->).
  rewrite Hpromo, andb_false_r in *. simpl.
  exists recs. split; [exact Hd |]. split; [reflexivity |].
  intros r i att Hr Hi Hnn.
  destruct (decode_cells _ _ _ _ r i att Hd Hr Hi) as (bs & Hbs & Hv).
  destruct (field_value_nullable _ _ _ _ Hnn Hv) as (ind & payload & -> & Hcell).
  exists ind, payload. split; [exact Hbs |]. split; [exact Hcell |]. split.
  - unfold atts_dtype. rewrite (from_records_column dtype _ _ _ _ Hi).
    unfold dtype. rewrite Hnn. reflexivity.
  - rewrite nth_error_column by exact Hr. rewrite Hcell. reflexivity.
Qed.

(** ** Dimensions and attributes *)

Lemma extracted_length (buf : list byte) (promo : bool) (atts : list Attribute)
      (meta : list (nat * nat)) (vs : list Value) :
  extracted buf promo atts meta vs -> List.length vs = List.length atts.
Proof.
  induction 1 as [| a atts off sz meta bs v vs Hr Hf Hrest IH]; simpl.
  - reflexivity.
  - rewrite IH. reflexivity.
Qed.

(** Each value of a decoded record is the value of the bytes the first
    pass recorded for its field, and a record has one value per field. *)
Lemma decode_record (atts : list Attribute) (buf : list byte) (promo : bool)
      (recs : list (list Value)) (r : nat) :
  iquery_decode atts buf promo = Ok recs ->
  r < List.length recs ->
  List.length (nth r recs []) = List.length atts /\
  forall i a,
    nth_error atts i = Some a ->
    exists bs v,
      field_bytes atts buf r i = Some bs /\
      nth_error (nth r recs []) i = Some v /\
      field_value a promo bs v.
Proof.
  intros Hd Hr. apply decode_Ok_inv in Hd as (metas & off & Hfp & Hx).
  pose proof (Forall2_length Hx) as Hlen.
  destruct (nth_error metas r) as [meta |] eqn:Hmeta;
    [| apply nth_error_None in Hmeta; lia].
  destruct (Forall2_nth_error_l _ _ _ _ _ Hx Hmeta) as (rec & Hrec & Hex).
  rewrite (nth_error_nth recs r [] Hrec). split.
  - eapply extracted_length; exact Hex.
  - intros i a Hi.
    destruct (extracted_nth _ _ _ _ _ _ _ Hex Hi)
      as (o & sz & bs & v & Hp & Hv & Hrd & Hf).
    exists bs, v. split; [| split; assumption].
    unfold field_bytes. rewrite Hfp. rewrite (nth_error_nth metas r [] Hmeta).
    rewrite Hp. exact Hrd.
Qed.

Lemma decode_count (atts : list Attribute) (buf : list byte) (promo : bool)
      (recs : list (list Value)) :
  iquery_decode atts buf promo = Ok recs ->
  exists off metas,
    first_pass itemsize atts buf = Ok (off, metas) /\
    List.length recs = List.length metas.
Proof.
  intros Hd. apply decode_Ok_inv in Hd as (metas & off & Hfp & Hx).
  exists off, metas. split; [exact Hfp | symmetry; exact (Forall2_length Hx)].
Qed.

Lemma rename_dims_length (an : list string) (todo done : list Dimension) :
  List.length (snd (rename_dims an done todo)) = List.length done + List.length todo.
Proof.
  revert done; induction todo as [| d rest IH]; intros done; simpl.
  - lia.
  - destruct (Py.contains an (dim_name d)); simpl; rewrite IH, length_app; simpl; lia.
Qed.

Lemma append_assoc (a b c : string) :
  String.append (String.append a b) c = String.append a (String.append b c).
Proof.
  induction a as [| x a IH]; simpl; [reflexivity | rewrite IH; reflexivity].
Qed.

Lemma append_assoc5 (a b c d e f : string) :
  String.append a (String.append b (String.append c (String.append d
    (String.append e f)))) =
  String.append (String.append a (String.append b (String.append c
    (String.append d e)))) f.
Proof. rewrite !append_assoc. reflexivity. Qed.

(** The query sent ends with the names of the fields, in their order. *)
Lemma unpack_query_projects (fh : Schema -> string) (q : string) (sch : Schema) :
  exists pre,
    unpack_query fh q sch =
    String.append pre
      (String.append
         (Py.join ", " (map name (atts (fetch_schema false sch)))) ")").
Proof.
  assert (Hn : map name (atts (fetch_schema false sch)) =
               projected_names (snd (make_dims_unique sch))).
  { unfold projected_names, fetch_schema, make_dims_atts. simpl atts.
    rewrite map_app, map_map. reflexivity. }
  rewrite Hn. unfold unpack_query. eexists. apply append_assoc5.
Qed.

(** C5.  When dimensions are fetched ([atts_only] false), the fields
    that are decoded are the dimensions, as not-null int64 fields, then
    the attributes, which is the order of the names the query sent to
    SciDB projects; there is one record per turn of the first pass, and
    each record is the dimension values followed by the attribute
    values, in descriptor order: the value of the j-th dimension is the
    int64 read from the bytes the first pass recorded for field j of
    that record, and the value of the j-th attribute comes from the
    bytes recorded for the field that many places after the dimensions.
    When [atts_only] is true the fields are the attributes, and each
    record holds, for each attribute and nothing else, the value of the
    bytes recorded for it. *)
Theorem C5_dimensions_first (sch : Schema) (atts_only : bool) (buf : list byte)
        (promo : bool) (recs : list (list Value)) :
  iquery_decode (atts (fetch_schema atts_only sch)) buf promo = Ok recs ->
  (exists off metas,
      first_pass itemsize (atts (fetch_schema atts_only sch)) buf = Ok (off, metas) /\
      List.length recs = List.length metas) /\
  (atts_only = false ->
   let ds := dims (snd (make_dims_unique sch)) in
   atts (fetch_schema atts_only sch) = map dim_att ds ++ atts sch /\
   List.length ds = List.length (dims sch) /\
   projected_names (snd (make_dims_unique sch)) =
   map name (atts (fetch_schema atts_only sch)) /\
   (forall fh q, exists pre,
       unpack_query fh q sch =
       String.append pre
         (String.append
            (Py.join ", " (map name (atts (fetch_schema atts_only sch)))) ")")) /\
   forall r, r < List.length recs ->
     exists dvals avals,
       nth r recs [] = dvals ++ avals /\
       List.length dvals = List.length ds /\
       List.length avals = List.length (atts sch) /\
       (forall j d, nth_error ds j = Some d ->
          exists bs,
            field_bytes (atts (fetch_schema atts_only sch)) buf r j = Some bs /\
            nth_error dvals j = Some (decode_val int64 bs)) /\
       (forall j a, nth_error (atts sch) j = Some a ->
          exists bs v,
            field_bytes (atts (fetch_schema atts_only sch)) buf r
                        (List.length ds + j) = Some bs /\
            nth_error avals j = Some v /\
            field_value a promo bs v)) /\
  (atts_only = true ->
   atts (fetch_schema atts_only sch) = atts sch /\
   forall r, r < List.length recs ->
     List.length (nth r recs []) = List.length (atts sch) /\
     forall j a, nth_error (atts sch) j = Some a ->
       exists bs v,
         field_bytes (atts (fetch_schema atts_only sch)) buf r j = Some bs /\
         nth_error (nth r recs []) j = Some v /\
         field_value a promo bs v).
Proof.
  intros Hd. split; [exact (decode_count _ _ _ _ Hd) |].
  split; intros ->.
  - assert (Hfields : atts (fetch_schema false sch) =
                      map dim_att (dims (snd (make_dims_unique sch))) ++ atts sch)
      by reflexivity.
    set (ds := dims (snd (make_dims_unique sch))) in *.
    split; [exact Hfields |].
    split; [apply rename_dims_length |].
    split; [unfold projected_names; rewrite Hfields, map_app, map_map; reflexivity |].
    split; [intros fh q; apply unpack_query_projects |].
    intros r Hr.
    destruct (decode_record _ _ _ _ r Hd Hr) as (Hlen & Hcells).
    rewrite Hfields, length_app, length_map in Hlen.
    exists (firstn (List.length ds) (nth r recs [])),
           (skipn (List.length ds) (nth r recs [])).
    split; [symmetry; apply firstn_skipn |].
    split; [apply firstn_length_le; lia |].
    split; [rewrite length_skipn; lia |].
    split.
    + intros j d Hj.
      assert (Hjlt : j < List.length ds) by (apply nth_error_Some; congruence).
      assert (Hfj : nth_error (atts (fetch_schema false sch)) j = Some (dim_att d)).
      { rewrite Hfields, nth_error_app1 by (rewrite length_map; exact Hjlt).
        apply map_nth_error. exact Hj. }
      destruct (Hcells j (dim_att d) Hfj) as (bs & v & Hb & Hv & Hf).
      exists bs. split; [exact Hb |].
      rewrite nth_error_firstn.
      destruct (Nat.ltb_spec j (List.length ds)); [| lia].
      rewrite Hv. inversion Hf; subst; try discriminate. reflexivity.
    + intros j a Hj.
      assert (Hfj : nth_error (atts (fetch_schema false sch))
                              (List.length ds + j) = Some a).
      { rewrite Hfields, nth_error_app2 by (rewrite length_map; lia).
        rewrite length_map. replace (List.length ds + j - List.length ds) with j by lia.
        exact Hj. }
      destruct (Hcells _ a Hfj) as (bs & v & Hb & Hv & Hf).
      exists bs, v. split; [exact Hb |]. split; [| exact Hf].
      rewrite nth_error_skipn. exact Hv.
  - split; [reflexivity |]. intros r Hr.
    exact (decode_record _ _ _ _ r Hd Hr).
Qed.

(** ** Unique names *)

Lemma contains_In (l : list string) (x : string) :
  Py.contains l x = true <-> In x l.
Proof.
  unfold Py.contains. rewrite existsb_exists. split.
  - intros (y & Hy & He). apply String.eqb_eq in He. subst. exact Hy.
  - intros H. exists x; split; [exact H | apply String.eqb_refl].
Qed.

Lemma append_inj_r (b x y : string) :
  String.append b x = String.append b y -> x = y.
Proof.
  induction b as [| c b IH]; simpl; intros H.
  - exact H.
  - injection H as H. apply IH; exact H.
Qed.

Lemma str_of_nat_inj (n m : nat) : Py.str_of_nat n = Py.str_of_nat m -> n = m.
Proof.
  unfold Py.str_of_nat. intros H.
  assert (Hu : Some (Nat.to_uint n) = Some (Nat.to_uint m))
    by (rewrite <- !NilEmpty.usu, H; reflexivity).
  injection Hu as Hu.
  rewrite <- (Unsigned.of_to n), <- (Unsigned.of_to m), Hu. reflexivity.
Qed.

Lemma suffixed_inj (base : string) (n m : nat) :
  suffixed base n = suffixed base m -> n = m.
Proof.
  unfold suffixed. intros H.
  apply append_inj_r in H. apply append_inj_r in H.
  apply str_of_nat_inj; exact H.
Qed.

(** The search for a fresh name stops on a name that is not taken:
    [seen] holds the candidates already found taken. *)
Lemma fresh_name_search (base : string) (taken : list string) (fuel c : nat)
      (seen : list string) :
  NoDup seen -> incl seen taken ->
  (forall s, In s seen -> exists j, j < c /\ s = suffixed base j) ->
  List.length seen + fuel = List.length taken ->
  ~ In (fresh_name fuel base c taken) taken.
Proof.
  revert c seen; induction fuel as [| fuel IH]; intros c seen Hnd Hincl Hseen Hlen; simpl.
  - intros Hin.
    assert (Hback : incl taken seen)
      by (apply NoDup_length_incl; [exact Hnd | lia | exact Hincl]).
    destruct (Hseen _ (Hback _ Hin)) as (j & Hj & He).
    apply suffixed_inj in He. lia.
  - destruct (Py.contains taken (suffixed base c)) eqn:Hc.
    + apply contains_In in Hc.
      apply (IH (S c) (suffixed base c :: seen)).
      * constructor; [| exact Hnd].
        intros Hin. destruct (Hseen _ Hin) as (j & Hj & He).
        apply suffixed_inj in He. lia.
      * intros s [<- | Hs]; [exact Hc | apply Hincl; exact Hs].
      * intros s [<- | Hs].
        -- exists c; split; [lia | reflexivity].
        -- destruct (Hseen _ Hs) as (j & Hj & He). exists j; split; [lia | exact He].
      * simpl; lia.
    + intros Hin. apply contains_In in Hin. congruence.
Qed.

Lemma fresh_name_not_taken (base : string) (taken : list string) :
  ~ In (fresh_name (List.length taken) base 1 taken) taken.
Proof.
  apply (fresh_name_search base taken (List.length taken) 1 []).
  - constructor.
  - intros s [].
  - intros s [].
  - reflexivity.
Qed.

Lemma NoDup_insert {A : Type} (l l' : list A) (a : A) :
  NoDup (l ++ l') -> ~ In a (l ++ l') -> NoDup (l ++ a :: l').
Proof.
  induction l as [| x l IH]; simpl; intros Hnd Hin.
  - constructor; assumption.
  - inversion Hnd as [| x' l0 Hx Hnd']; subst. constructor.
    + rewrite in_app_iff in *. simpl. intros [H | [H | H]]; subst; tauto.
    + apply IH; [exact Hnd' | tauto].
Qed.

Lemma rename_dims_unique (an : list string) (todo done : list Dimension) :
  NoDup (map dim_name done ++ map dim_name todo) ->
  (forall d, In d done -> ~ In (dim_name d) an) ->
  NoDup (map dim_name (snd (rename_dims an done todo))) /\
  (forall d, In d (snd (rename_dims an done todo)) -> ~ In (dim_name d) an).
Proof.
  revert done; induction todo as [| d rest IH]; intros done Hnd Hdone; simpl.
  - rewrite app_nil_r in Hnd. split; assumption.
  - destruct (Py.contains an (dim_name d)) eqn:Hc; simpl.
    + pose proof (fresh_name_not_taken (dim_name d)
                    (an ++ map dim_name done ++ map dim_name rest)) as Hfresh.
      rewrite in_app_iff in Hfresh.
      apply IH.
      * rewrite map_app, <- app_assoc. simpl.
        apply NoDup_insert; [apply (NoDup_remove_1 _ _ _ Hnd) | tauto].
      * intros d' Hd'. apply in_app_iff in Hd' as [Hd' | [<- | []]].
        -- apply Hdone; exact Hd'.
        -- simpl. tauto.
    + apply IH.
      * rewrite map_app, <- app_assoc. simpl. exact Hnd.
      * intros d' Hd'. apply in_app_iff in Hd' as [Hd' | [<- | []]].
        -- apply Hdone; exact Hd'.
        -- intros Hin. apply contains_In in Hin. congruence.
Qed.

(** The decoder does not look at the names of the fields. *)
Section DecodeExt.

Context {A B : Type}.
Variable itemsizeA : A -> list byte -> nat -> result nat.
Variable frombytesA : A -> list byte -> nat -> nat -> bool -> result Value.
Variable itemsizeB : B -> list byte -> nat -> result nat.
Variable frombytesB : B -> list byte -> nat -> nat -> bool -> result Value.
Variable g : A -> B.
Hypothesis itemsize_g :
  forall a buf off, itemsizeB (g a) buf off = itemsizeA a buf off.
Hypothesis frombytes_g :
  forall a buf off sz promo,
    frombytesB (g a) buf off sz promo = frombytesA a buf off sz promo.

Lemma scan_record_ext (atts : list A) (buf : list byte) (off : nat)
      (acc : list (nat * nat)) :
  scan_record itemsizeB (map g atts) buf off acc =
  scan_record itemsizeA atts buf off acc.
Proof.
  revert off acc; induction atts as [| a atts IH]; intros off acc; simpl.
  - reflexivity.
  - rewrite itemsize_g. destruct (itemsizeA a buf off); simpl; auto.
Qed.

Lemma scan_ext (fuel : nat) (atts : list A) (buf : list byte) (off : nat)
      (acc : list (list (nat * nat))) :
  scan itemsizeB fuel (map g atts) buf off acc =
  scan itemsizeA fuel atts buf off acc.
Proof.
  revert off acc; induction fuel as [| fuel IH]; intros off acc; simpl.
  - reflexivity.
  - destruct (off <? List.length buf); [| reflexivity].
    rewrite scan_record_ext.
    destruct (scan_record itemsizeA atts buf off []); simpl; auto.
Qed.

Lemma extract_ext (atts : list A) (meta : list (nat * nat)) (buf : list byte)
      (promo : bool) :
  extract frombytesB (map g atts) meta buf promo =
  extract frombytesA atts meta buf promo.
Proof.
  revert meta; induction atts as [| a atts IH]; intros meta; simpl.
  - reflexivity.
  - destruct meta as [| [off sz] meta]; [reflexivity |].
    rewrite frombytes_g, IH. reflexivity.
Qed.

Lemma decode_ext (atts : list A) (buf : list byte) (promo : bool) :
  decode itemsizeB frombytesB (map g atts) buf promo =
  decode itemsizeA frombytesA atts buf promo.
Proof.
  unfold decode, first_pass, second_pass. rewrite scan_ext.
  destruct (scan itemsizeA (List.length buf) atts buf 0 []) as [[off metas] | e |];
    simpl; try reflexivity.
  induction metas as [| meta metas IH]; simpl; [reflexivity |].
  rewrite extract_ext, IH. reflexivity.
Qed.

End DecodeExt.

Lemma from_records_at_rename (f : string -> string) (g : Attribute -> DType)
      (atts : list Attribute) (recs : list (list Value)) (k : nat) :
  from_records_at k (map (fun a => (name a, g a)) (map (with_name f) atts)) recs =
  map (fun c => (f (fst (fst c)), snd (fst c), snd c))
      (from_records_at k (map (fun a => (name a, g (with_name f a))) atts) recs).
Proof.
  revert k; induction atts as [| a atts IH]; intros k; simpl.
  - reflexivity.
  - rewrite IH. reflexivity.
Qed.

(** Renaming the fields of the schema only renames the fields of the
    result. *)
Lemma iquery_records_rename (f : string -> string) (a : iquery_args)
      (sch : Schema) (buf : list byte) :
  iquery_records a (rename_schema f sch) buf =
  bind (iquery_records a sch buf) (fun r => Ok (rename_result f r)).
Proof.
  unfold iquery_records, rename_schema. simpl atts.
  unfold iquery_decode.
  rewrite (decode_ext itemsize frombytes itemsize frombytes (with_name f))
    by (intros; reflexivity).
  destruct (decode itemsize frombytes (atts sch) buf
                   (as_dataframe a && dataframe_promo a)) as [recs | e |];
    simpl; try reflexivity.
  unfold get_promo_atts_dtype, atts_dtype, from_records. simpl atts.
  destruct (as_dataframe a), (dataframe_promo a); simpl;
    rewrite ?from_records_at_rename, ?map_map; reflexivity.
Qed.

Lemma fresh_name_form (base : string) (taken : list string) (fuel c : nat) :
  exists n, c <= n /\ fresh_name fuel base c taken = suffixed base n.
Proof.
  revert c; induction fuel as [| fuel IH]; intros c; simpl.
  - exists c. split; [lia | reflexivity].
  - destruct (Py.contains taken (suffixed base c)).
    + destruct (IH (S c)) as (n & Hn & He). exists n. split; [lia | exact He].
    + exists c. split; [lia | reflexivity].
Qed.

(** What the loop of [make_dims_unique] returns, dimension by
    dimension, and when it reports a renaming. *)
Lemma rename_dims_spec (an : list string) (todo done : list Dimension) :
  exists todo',
    snd (rename_dims an done todo) = done ++ todo' /\
    Forall2 (dim_renamed an) todo todo' /\
    (fst (rename_dims an done todo) = true <->
     exists d, In d todo /\ In (dim_name d) an).
Proof.
  revert done; induction todo as [| d rest IH]; intros done; simpl.
  - exists []. rewrite app_nil_r. split; [reflexivity |]. split; [constructor |].
    split; [discriminate | intros (d & [] & _)].
  - destruct (Py.contains an (dim_name d)) eqn:Hc.
    + set (d' := rename d (fresh_name
                             (List.length (an ++ map dim_name done ++ map dim_name rest))
                             (dim_name d) 1
                             (an ++ map dim_name done ++ map dim_name rest))).
      destruct (IH (done ++ [d'])) as (rest' & Hsnd & Hf & _).
      exists (d' :: rest'). simpl. rewrite Hsnd, <- app_assoc.
      split; [reflexivity |]. split.
      * constructor; [| exact Hf]. split.
        -- intros _. unfold d'.
           destruct (fresh_name_form (dim_name d)
                       (an ++ map dim_name done ++ map dim_name rest)
                       (List.length (an ++ map dim_name done ++ map dim_name rest)) 1)
             as (n & Hn & He).
           exists n. split; [exact Hn | rewrite He; reflexivity].
        -- intros Hnot. apply contains_In in Hc. contradiction.
      * split; [| reflexivity]. intros _. exists d.
        split; [left; reflexivity | apply contains_In; exact Hc].
    + destruct (IH (done ++ [d])) as (rest' & Hsnd & Hf & Hfst).
      exists (d :: rest'). rewrite Hsnd, <- app_assoc.
      split; [reflexivity |]. split.
      * constructor; [| exact Hf]. split.
        -- intros Hin. apply contains_In in Hin. congruence.
        -- reflexivity.
      * rewrite Hfst. split.
        -- intros (d0 & Hd0 & Hin). exists d0. split; [right; exact Hd0 | exact Hin].
        -- intros (d0 & [<- | Hd0] & Hin).
           ++ apply contains_In in Hin. congruence.
           ++ exists d0. split; assumption.
Qed.

(** When a dimension was renamed, the query is wrapped in [cast]. *)
Lemma unpack_query_cast (fh : Schema -> string) (q : string) (sch : Schema) :
  fst (make_dims_unique sch) = true ->
  exists rest,
    unpack_query fh q sch =
    String.append "project(apply(cast(" (String.append q rest).
Proof.
  intros H. unfold unpack_query. rewrite H.
  rewrite !append_assoc. eexists. reflexivity.
Qed.

(** C7.  For a schema whose attribute names are distinct and whose
    dimension names are distinct, the names of the fields handed to the
    decoder are distinct.  With [atts_only] the fields are the
    attributes.  Otherwise they are the dimensions followed by the
    attributes, and the collisions are resolved before the buffer is
    decoded: a dimension whose name is the name of an attribute has been
    renamed, to its name followed by [_N], a dimension whose name is not
    is kept as it is, no dimension name is left among the attribute
    names, and a renaming is reported exactly when some dimension
    collides, in which case the query is wrapped in [cast].  Neither the
    decoder nor the construction of the result looks at a name: renaming
    the fields in any way, even all to one and the same name, changes no
    decoded record and only renames the fields of the result. *)
Theorem C7_names_unique (sch : Schema) (atts_only : bool) :
  NoDup (map name (atts sch)) -> NoDup (map dim_name (dims sch)) ->
  NoDup (map name (atts (fetch_schema atts_only sch))) /\
  (atts_only = true -> atts (fetch_schema atts_only sch) = atts sch) /\
  (atts_only = false ->
   exists ds,
     atts (fetch_schema atts_only sch) = map dim_att ds ++ atts sch /\
     Forall2 (dim_renamed (map name (atts sch))) (dims sch) ds /\
     Forall (fun d' => ~ In (dim_name d') (map name (atts sch))) ds /\
     (fst (make_dims_unique sch) = true <->
      exists d, In d (dims sch) /\ In (dim_name d) (map name (atts sch))) /\
     (forall fh q,
         fst (make_dims_unique sch) = true ->
         exists rest,
           unpack_query fh q sch =
           String.append "project(apply(cast(" (String.append q rest))) /\
  (forall (f : string -> string) (buf : list byte) (promo : bool),
      iquery_decode (map (with_name f) (atts (fetch_schema atts_only sch))) buf promo =
      iquery_decode (atts (fetch_schema atts_only sch)) buf promo) /\
  (forall (f : string -> string) (a : iquery_args) (buf : list byte),
      iquery_records a (rename_schema f (fetch_schema atts_only sch)) buf =
      bind (iquery_records a (fetch_schema atts_only sch) buf)
           (fun r => Ok (rename_result f r))).
Proof.
  intros Hatts Hdims.
  destruct (rename_dims_unique (map name (atts sch)) (dims sch) [])
    as (Hnd & Hdisj); [exact Hdims | intros d [] |].
  destruct (rename_dims_spec (map name (atts sch)) (dims sch) [])
    as (ds & Hsnd & Hren & Hfst).
  simpl in Hsnd.
  split; [| split; [| split; [| split]]].
  - destruct atts_only; unfold fetch_schema; [exact Hatts |].
    unfold make_dims_atts, make_dims_unique. simpl.
    rewrite map_app, map_map. simpl.
    apply NoDup_app; [exact Hnd | exact Hatts |].
    intros n Hn. apply in_map_iff in Hn as (d & <- & Hd). apply Hdisj; exact Hd.
  - intros ->. reflexivity.
  - intros ->. exists ds. split.
    { unfold fetch_schema, make_dims_atts, make_dims_unique. simpl.
      rewrite Hsnd. reflexivity. }
    split; [exact Hren |]. split.
    { apply Forall_forall. intros d' Hd'. apply Hdisj. rewrite Hsnd. exact Hd'. }
    split; [exact Hfst |].
    intros fh q. apply unpack_query_cast.
  - intros f buf promo. unfold iquery_decode.
    apply (decode_ext itemsize frombytes itemsize frombytes (with_name f));
      intros; reflexivity.
  - intros f a buf. apply iquery_records_rename.
Qed.

(** ** The connection object and the deferred expression *)

Section ConnectionFacts.

Variable remote : list Request -> Request -> option (list byte).
Variable text : list byte -> string.
Variable str_split : string -> list string.
Variable Schema_fromstring : string -> result Schema.
Variable Schema_format_h : Schema -> string.
Variable atts_fmt : Schema -> string.

(** C10.  With SciDB credentials and a URL that does not start with
    [https] in any letter case, the constructor raises and returns no
    connection (and sends nothing); the exception is the one about
    https unless the HTTP credentials are themselves ill-formed.  With
    an https URL and a (user, password) pair, every connection the
    constructor returns keeps the pair in the private field and shows
    the user with a placeholder in place of the password; it returns
    one whenever the server answers. *)
Theorem C10_scidb_auth_needs_https (url u : string) (rest : list string)
        (http_auth : option (list string)) (role namespace : option string)
        (verify : option bool) (log : list Request) :
  (Py.startswith (Py.lower url) "https" = false ->
   (exists e, DB_init remote text str_split url (Some (u :: rest)) http_auth role namespace
                      verify log = (Raise e, log)) /\
   ((http_auth = None \/ http_auth = Some [] \/
     exists hu hp, http_auth = Some [hu; hp]) ->
    DB_init remote text str_split url (Some (u :: rest)) http_auth role namespace verify log =
    (Raise (Exception "SciDB credentials can only be used with https connections"),
     log))) /\
  (Py.startswith (Py.lower url) "https" = true ->
   forall p rest', rest = p :: rest' ->
     (forall d log',
         DB_init remote text str_split url (Some (u :: rest)) http_auth role namespace
                 verify log = (Ok d, log') ->
         Db.scidb_auth d = Some (u, PASSWORD_PROVIDED) /\
         _scidb_auth d = Some [("user", Py.VStr u); ("password", Py.VStr p)]%string /\
         scidb_url d = url) /\
     ((http_auth = None \/ http_auth = Some [] \/
       exists hu hp, http_auth = Some [hu; hp]) ->
      (forall l r, remote l r <> None) ->
      exists d log',
        DB_init remote text str_split url (Some (u :: rest)) http_auth role namespace
                verify log = (Ok d, log'))).
Proof.
  split.
  - intros Hhttp. split.
    + unfold DB_init, bindM.
      destruct http_auth as [[| hu [| hp [| x t]]] |]; simpl;
        rewrite ?Hhttp; simpl; eexists; reflexivity.
    + intros [-> | [-> | (hu & hp & ->)]]; unfold DB_init, bindM; simpl;
        rewrite Hhttp; reflexivity.
  - intros Hhttps p rest' ->. split.
    + intros d log'. unfold DB_init, bindM.
      destruct http_auth as [[| hu [| hp [| x t]]] |]; simpl;
        rewrite ?Hhttps; simpl; try discriminate;
        unfold iquery_readlines, bindM, _shim, ret;
        repeat (match goal with
                | |- context [remote ?l ?r] => destruct (remote l r)
                end; simpl; try discriminate);
        intros H; injection H as <- _; repeat split; reflexivity.
    + intros Hwf Hanswer.
      assert (Hsome : forall l r, exists c, remote l r = Some c).
      { intros l r. destruct (remote l r) as [c |] eqn:E;
          [exists c; reflexivity | exfalso; exact (Hanswer l r E)]. }
      destruct Hwf as [-> | [-> | (hu & hp & ->)]];
        unfold DB_init, bindM; simpl; rewrite Hhttps; simpl;
        unfold iquery_readlines, bindM, _shim, ret;
        repeat (match goal with
                | |- context [remote ?l ?r] =>
                    let c := fresh "c" in
                    let E := fresh "E" in
                    destruct (Hsome l r) as (c & E); rewrite E; clear E
                end; simpl);
        eexists; eexists; reflexivity.
Qed.

End ConnectionFacts.

Section ExpressionFacts.

Variable remote : list Request -> Request -> option (list byte).
Variable text : list byte -> string.
Variable str_split : string -> list string.
Variable Schema_fromstring : string -> result Schema.
Variable Schema_format_h : Schema -> string.
Variable atts_fmt : Schema -> string.

(** [iquery] without [fetch]: a session is opened and the query is
    executed in it. *)
Lemma iquery_no_fetch (d : DB) (q : string) (log : list Request) :
  iquery remote text Schema_fromstring Schema_format_h atts_fmt d q iquery_defaults log =
  let r1 := shim_request d new_session [] in
  match remote log r1 with
  | None => (Raise HTTPError, log ++ [r1])
  | Some id =>
      let r2 := shim_request d execute_query
                  [("id", Py.VStr (text id)); ("query", Py.VStr q);
                   ("release", Py.VInt 1)]%string in
      match remote (log ++ [r1]) r2 with
      | None => (Raise HTTPError, log ++ [r1; r2])
      | Some _ => (Ok RNone, log ++ [r1; r2])
      end
  end.
Proof.
  unfold iquery, bindM, _shim. simpl.
  destruct (remote log (shim_request d new_session [])) as [id |]; [| reflexivity].
  simpl.
  destruct (remote _ _); rewrite <- app_assoc; reflexivity.
Qed.

(** C9.  An expression object holds its operator and its arguments.
    Calling an expression of a lazy operator returns the object itself,
    with the arguments of the call, and sends no request.  Calling an
    expression of [create_array] or [remove] (in any letter case) runs
    [iquery] on the printed expression: a session is opened and, when
    the server grants it, the query is executed in it. *)
Theorem C9_deferred_expression (d : DB) (op : string)
        (init_args call_args : list Py.value) (log : list Request) :
  let e := SciDB_init d op init_args in
  let e' :=
    set_args e
      (if Py.startswith (Py.lower op) "create_array"
          && (List.length call_args <? 3)
       then call_args ++ [Py.VBool false] else call_args) in
  let r1 := shim_request d new_session [] in
  (operator e = op /\ args e = init_args /\ db e = d) /\
  (Py.contains ["create_array"; "remove"]%string (Py.lower op) = false ->
   is_lazy e = true /\
   SciDB_call remote text Schema_fromstring Schema_format_h atts_fmt e call_args log =
   (Ok (e', ReturnedSelf), log)) /\
  (Py.lower op = "create_array"%string \/ Py.lower op = "remove"%string ->
   is_lazy e = false /\
   exists r log',
     iquery remote text Schema_fromstring Schema_format_h atts_fmt d
            (SciDB_str e') iquery_defaults log = (r, log') /\
     SciDB_call remote text Schema_fromstring Schema_format_h atts_fmt e call_args log =
     (bind r (fun v => Ok (e', Returned v)), log') /\
     (exists reqs, log' = log ++ r1 :: reqs) /\
     (forall id, remote log r1 = Some id ->
                 log' = log ++ [r1;
                                shim_request d execute_query
                                  [("id", Py.VStr (text id));
                                   ("query", Py.VStr (SciDB_str e'));
                                   ("release", Py.VInt 1)]%string])).
Proof.
  intros e e' r1.
  assert (Hlz : forall a,
             is_lazy (set_args e a) =
             negb (Py.contains ["create_array"; "remove"]%string (Py.lower op)))
    by reflexivity.
  assert (He' : (if Py.startswith (Py.lower op) "create_array"
                    && (List.length call_args <? 3)
                 then set_args (set_args e call_args)
                               (call_args ++ [Py.VBool false])
                 else set_args e call_args) = e')
    by (unfold e'; destruct (Py.startswith (Py.lower op) "create_array"
                             && (List.length call_args <? 3)); reflexivity).
  assert (Hcall :
            SciDB_call remote text Schema_fromstring Schema_format_h atts_fmt e
                       call_args log =
            (if is_lazy e' then ret (e', ReturnedSelf)
             else bindM (iquery remote text Schema_fromstring Schema_format_h atts_fmt
                                d (SciDB_str e') iquery_defaults)
                        (fun r => ret (e', Returned r))) log).
  { unfold SciDB_call.
    change (operator (set_args e call_args)) with op.
    change (args (set_args e call_args)) with call_args.
    rewrite He'. reflexivity. }
  split; [repeat split |]. split.
  - intros Hlazy.
    change (is_lazy e) with
      (negb (Py.contains ["create_array"; "remove"]%string (Py.lower op))).
    rewrite Hlazy. split; [reflexivity |].
    rewrite Hcall. unfold e' at 1. rewrite Hlz, Hlazy. reflexivity.
  - intros Hop.
    assert (Himm : Py.contains ["create_array"; "remove"]%string (Py.lower op) = true).
    { apply contains_In. simpl. destruct Hop as [-> | ->]; auto. }
    change (is_lazy e) with
      (negb (Py.contains ["create_array"; "remove"]%string (Py.lower op))).
    rewrite Himm. split; [reflexivity |].
    destruct (iquery remote text Schema_fromstring Schema_format_h atts_fmt d
                     (SciDB_str e') iquery_defaults log) as [r log'] eqn:Hq.
    exists r, log'. split; [reflexivity |]. split.
    + rewrite Hcall. unfold e' at 1. rewrite Hlz, Himm. simpl.
      unfold bindM. rewrite Hq. destruct r; reflexivity.
    + rewrite iquery_no_fetch in Hq. cbv zeta in Hq. fold r1 in Hq. split.
      * destruct (remote log r1) as [id |].
        -- destruct (remote (log ++ [r1]) _); injection Hq as _ <-;
             eexists; reflexivity.
        -- injection Hq as _ <-. eexists; reflexivity.
      * intros id Hid. rewrite Hid in Hq.
        destruct (remote (log ++ [r1]) _); injection Hq as _ <-; reflexivity.
Qed.

End ExpressionFacts.

(** ** [iquery] with [fetch] *)

Section FetchFacts.

Variable remote : list Request -> Request -> option (list byte).
Variable text : list byte -> string.
Variable str_split : string -> list string.
Variable Schema_fromstring : string -> result Schema.
Variable Schema_format_h : Schema -> string.
Variable atts_fmt : Schema -> string.

(** X14.  With [fetch] and a [Schema] instance, and a server that answers,
    [iquery] sends four requests and returns what [iquery_records]
    makes of the downloaded buffer and of the schema, the dimensions
    put in front unless [atts_only]. *)
Lemma iquery_fetch_given_schema (d : DB) (q : string) (a : iquery_args)
      (sch : Schema) (log : list Request) (id c buf c' : list byte) :
  fetch a = true -> schema a = Some (inl sch) ->
  let sch' := fetch_schema (atts_only a) sch in
  let q' := if atts_only a then q else unpack_query Schema_format_h q sch in
  let r1 := shim_request d new_session [] in
  let r2 := shim_request d execute_query
              [("id", Py.VStr (text id)); ("query", Py.VStr q');
               ("save", Py.VStr (atts_fmt sch'))]%string in
  let r3 := shim_request d read_bytes
              [("id", Py.VStr (text id)); ("n", Py.VInt 0)]%string in
  let r4 := shim_request d release_session [("id", Py.VStr (text id))]%string in
  remote log r1 = Some id ->
  remote (log ++ [r1]) r2 = Some c ->
  remote ((log ++ [r1]) ++ [r2]) r3 = Some buf ->
  remote (((log ++ [r1]) ++ [r2]) ++ [r3]) r4 = Some c' ->
  iquery remote text Schema_fromstring Schema_format_h atts_fmt d q a log =
  (iquery_records a sch' buf, log ++ [r1; r2; r3; r4]).
Proof.
  intros Hf Hs sch' q' r1 r2 r3 r4 H1 H2 H3 H4.
  unfold iquery, bindM, _shim. fold r1. rewrite H1, Hf, Hs.
  unfold ret at 1. fold sch' q' r2. rewrite H2. fold r3. rewrite H3.
  fold r4. rewrite H4. unfold lift.
  rewrite <- !app_assoc. simpl.
  destruct (iquery_records a sch' buf); reflexivity.
Qed.

End FetchFacts.

(** A loop over no field at all never ends on a buffer that is not
    empty. *)
Lemma scan_no_fields (itemsize : Attribute -> list byte -> nat -> result nat)
      (fuel : nat) (buf : list byte) (off : nat) (acc : list (list (nat * nat))) :
  off < List.length buf -> scan itemsize fuel [] buf off acc = Diverge.
Proof.
  intros H. apply (scan_stuck itemsize [] buf off []); [exact H | reflexivity].
Qed.

(** ** The doctests of [db.py] *)

(** [iquery(db, 'scan(foo)', fetch=True)] *)
Example doctest_scan_foo :
  iquery_records {| fetch := true; atts_only := false; as_dataframe := false;
                    dataframe_promo := true; schema := None |}
                 (fetch_schema false doc_schema) doc_buf =
  Ok (RArray [("i"%string, D_int true 8); ("x"%string, D_null_val (D_int true 8))]
             [[NpInt 0; NpPair 255 (NpInt 0)];
              [NpInt 1; NpPair 255 (NpInt 1)];
              [NpInt 2; NpPair 255 (NpInt 2)]]).
Proof. reflexivity. Qed.

(** [iquery(db, 'build(<x:int64>[i=0:2], i)', fetch=True, as_dataframe=True)] *)
Example doctest_dataframe :
  iquery_records {| fetch := true; atts_only := false; as_dataframe := true;
                    dataframe_promo := true; schema := None |}
                 (fetch_schema false doc_schema) doc_buf =
  Ok (RDataFrame
        [("i"%string, D_int true 8, [NpInt 0; NpInt 1; NpInt 2]);
         ("x"%string, D_float,
          [NpFloat (of_int 0); NpFloat (of_int 1); NpFloat (of_int 2)])]).
Proof. reflexivity. Qed.

(** The same with [dataframe_promo=False]. *)
Example doctest_dataframe_no_promo :
  iquery_records {| fetch := true; atts_only := false; as_dataframe := true;
                    dataframe_promo := false; schema := None |}
                 (fetch_schema false doc_schema) doc_buf =
  Ok (RDataFrame
        [("i"%string, D_int true 8, [NpInt 0; NpInt 1; NpInt 2]);
         ("x"%string, D_null_val (D_int true 8),
          [NpPair 255 (NpInt 0); NpPair 255 (NpInt 1); NpPair 255 (NpInt 2)])]).
Proof. reflexivity. Qed.

(** [apply(build(<x:int64 not null>[i=0:2], i), i, i)]: the dimension [i]
    collides with the attribute [i] and becomes [i_1]. *)
Example doctest_collision :
  map name
      (atts (fetch_schema false
               {| sch_name := None;
                  atts := [{| name := "x"; type_name := int64; not_null := true |};
                           {| name := "i"; type_name := int64; not_null := true |}];
                  dims := [{| dim_name := "i"; low_value := Some 0%Z;
                              high_value := Some 2%Z |}] |})) =
  ["i_1"; "x"; "i"]%string.
Proof. reflexivity. Qed.

(** A null in the last record: NaN under promotion, the raw pair
    without. *)
Example null_promoted :
  iquery_decode [doc_i; doc_x] doc_buf_null true =
  Ok [[NpInt 0; NpFloat (of_int 0)]; [NpInt 1; NpFloat (of_int 1)];
      [NpInt 2; NpFloat NaN]].
Proof. reflexivity. Qed.

Example null_raw :
  iquery_decode [doc_i; doc_x] doc_buf_null false =
  Ok [[NpInt 0; NpPair 255 (NpInt 0)]; [NpInt 1; NpPair 255 (NpInt 1)];
      [NpInt 2; NpPair 0 (NpInt 2)]].
Proof. reflexivity. Qed.

(** ** The theorems at the doctest data *)

Lemma C1_witness :
  two_pass_spec [doc_i; doc_x] doc_buf false
                [[NpInt 0; NpPair 255 (NpInt 0)];
                 [NpInt 1; NpPair 255 (NpInt 1)];
                 [NpInt 2; NpPair 255 (NpInt 2)]].
Proof.
  apply (proj1 (C1_decode_two_passes [doc_i; doc_x] doc_buf false _)).
  reflexivity.
Defined.

Lemma C2_witness :
  iquery_records iquery_defaults (fetch_schema false doc_schema)
                 (firstn 50 doc_buf) = Raise TruncatedBuffer.
Proof.
  refine (proj2 (C2_truncated_buffer_fails iquery_defaults
                   (fetch_schema false doc_schema) (firstn 50 doc_buf) 51
                   [[(0, 8); (8, 9)]; [(17, 8); (25, 9)]; [(34, 8); (42, 9)]]
                   _ _)).
  - reflexivity.
  - simpl. discriminate.
Defined.


Lemma C4_witness :
  exists recs, iquery_decode [doc_i; doc_x] doc_buf true = Ok recs /\
               List.length recs = 3.
Proof.
  refine (proj1 (C4_fixed_width_record_count [doc_i; doc_x] doc_buf true _ _) _).
  - discriminate.
  - reflexivity.
  - reflexivity.
Defined.

Lemma C5_witness :
  atts (fetch_schema false doc_schema) = [doc_i; doc_x] /\
  atts (fetch_schema true doc_schema) = [doc_x].
Proof.
  split.
  - refine (proj1 (proj1 (proj2 (C5_dimensions_first doc_schema false doc_buf false
                                   [[NpInt 0; NpPair 255 (NpInt 0)];
                                    [NpInt 1; NpPair 255 (NpInt 1)];
                                    [NpInt 2; NpPair 255 (NpInt 2)]] _)) _)).
    + reflexivity.
    + reflexivity.
  - refine (proj1 (proj2 (proj2 (C5_dimensions_first doc_schema true
                                   (xff :: doc_int64 x00) false
                                   [[NpPair 255 (NpInt 0)]] _)) _)).
    + reflexivity.
    + reflexivity.
Defined.

Lemma C6_witness : dataframe_promo iquery_defaults = true.
Proof.
  refine (proj1 (C6_promotion_flag
                   {| fetch := true; atts_only := false; as_dataframe := true;
                      dataframe_promo := false; schema := None |}
                   (fetch_schema false doc_schema) doc_buf
                   (RDataFrame
                      [("i"%string, D_int true 8, [NpInt 0; NpInt 1; NpInt 2]);
                       ("x"%string, D_null_val (D_int true 8),
                        [NpPair 255 (NpInt 0); NpPair 255 (NpInt 1);
                         NpPair 255 (NpInt 2)])]) _ _)).
  - reflexivity.
  - reflexivity.
Defined.

Lemma C7_witness :
  NoDup (map name (atts (fetch_schema false doc_collision_schema))).
Proof.
  refine (proj1 (C7_names_unique doc_collision_schema false _ _)).
  - simpl. constructor; [intros [H | []]; discriminate |].
    constructor; [intros [] | constructor].
  - simpl. constructor; [intros [] | constructor].
Defined.

(** C8, as stated, fails: on a buffer of 9 bytes and one not-null int64
    field the first pass records the pairs (0, 8) and (8, 8), which run
    to offset 16 and do not partition the 9 bytes. *)
Lemma C8_counterexample :
  first_pass itemsize [doc_i] (doc_int64 x00 ++ [x00]) =
  Ok (16, [[(0, 8)]; [(8, 8)]]) /\
  ~ exact_partition (doc_int64 x00 ++ [x00]) (List.concat [[(0, 8)]; [(8, 8)]]).
Proof.
  split; [reflexivity |].
  unfold exact_partition. simpl. intros (_ & _ & H). discriminate.
Qed.

Lemma C8_witness :
  exact_partition doc_buf
    (List.concat [[(0, 8); (8, 9)]; [(17, 8); (25, 9)]; [(34, 8); (42, 9)]]).
Proof.
  destruct (C8_offsets_contiguous itemsize [doc_i; doc_x] doc_buf 51
              [[(0, 8); (8, 9)]; [(17, 8); (25, 9)]; [(34, 8); (42, 9)]] eq_refl)
    as (_ & _ & _ & _ & Ht & Hp).
  apply Hp. exact Ht.
Defined.

Lemma C9_witness :
  let d := mkDB "http://localhost:8080" None None None None None None None
                ["build"; "remove"]%string in
  SciDB_call (doc_remote []) text_bytes (fun _ => Raise SchemaMismatch)
             (fun _ => EmptyString) (fun _ => EmptyString)
             (SciDB_init d "build" [])
             [Py.VStr "<x:int8>[i=0:2]"; Py.VStr "random()"] [] =
  (Ok (set_args (SciDB_init d "build" [])
                [Py.VStr "<x:int8>[i=0:2]"; Py.VStr "random()"], ReturnedSelf),
   []) /\
  is_lazy (SciDB_init d "remove" []) = false.
Proof.
  intros d. split.
  - refine (proj2 (proj1 (proj2 (C9_deferred_expression (doc_remote []) text_bytes
                                   (fun _ => Raise SchemaMismatch)
                                   (fun _ => EmptyString) (fun _ => EmptyString)
                                   d "build" [] _ [])) _)).
    reflexivity.
  - refine (proj1 (proj2 (proj2 (C9_deferred_expression (doc_remote []) text_bytes
                                   (fun _ => Raise SchemaMismatch)
                                   (fun _ => EmptyString) (fun _ => EmptyString)
                                   d "remove" [] [Py.VStr "foo"] [])) _)).
    right; reflexivity.
Defined.

Lemma C10_witness :
  DB_init (doc_remote []) text_bytes Py.split "http://localhost:8080" (Some ["foo"; "bar"]%string)
          None None None None [] =
  (Raise (Exception "SciDB credentials can only be used with https connections"),
   []) /\
  exists d log',
    DB_init (doc_remote []) text_bytes Py.split "https://localhost:8083" (Some ["foo"; "bar"]%string)
            None None None (Some false) [] = (Ok d, log') /\
    Db.scidb_auth d = Some ("foo"%string, PASSWORD_PROVIDED).
Proof.
  split.
  - refine (proj2 (proj1 (C10_scidb_auth_needs_https (doc_remote []) text_bytes Py.split
                            "http://localhost:8080" "foo" ["bar"%string]
                            None None None None []) _) _).
    + reflexivity.
    + left; reflexivity.
  - destruct (proj2 (C10_scidb_auth_needs_https (doc_remote []) text_bytes Py.split
                       "https://localhost:8083" "foo" ["bar"%string]
                       None None None (Some false) [])
                    eq_refl "bar"%string [] eq_refl) as (Hfields & Hreturns).
    destruct (Hreturns (or_introl eq_refl)) as (d & log' & Hd).
    + intros l r. discriminate.
    + exists d, log'. split; [exact Hd |].
      exact (proj1 (Hfields d log' Hd)).
Defined.

(** * Further properties of [db.py] *)

(** ** The two loops, for any [itemsize] and [frombytes] *)

Section LoopShape.

Context {Att : Type}.
Variable itemsize : Att -> list byte -> nat -> result nat.
Variable frombytes : Att -> list byte -> nat -> nat -> bool -> result Value.

Lemma extract_length (atts : list Att) (meta : list (nat * nat)) (buf : list byte)
      (promo : bool) (vs : list Value) :
  extract frombytes atts meta buf promo = Ok vs ->
  List.length vs = Nat.min (List.length atts) (List.length meta).
Proof.
  revert meta vs; induction atts as [| a atts IH]; intros meta vs H; simpl in *.
  - injection H as <-. reflexivity.
  - destruct meta as [| [off sz] meta]; simpl in *.
    + injection H as <-. reflexivity.
    + apply bind_Ok_inv in H as (v & _ & H).
      apply bind_Ok_inv in H as (vs' & Hvs & H). injection H as <-.
      simpl. rewrite (IH _ _ Hvs). reflexivity.
Qed.

(** X1.  Whatever the two methods of [Attribute] do, when the decoder
    returns, it returns one record per turn of the first loop, every
    turn recorded one pair per field, and every record holds one value
    per field: the [zip] of the second loop never cuts a record short. *)
Theorem decode_shape (atts : list Att) (buf : list byte) (promo : bool)
        (recs : list (list Value)) :
  decode itemsize frombytes atts buf promo = Ok recs ->
  exists off metas,
    first_pass itemsize atts buf = Ok (off, metas) /\
    List.length recs = List.length metas /\
    Forall (fun meta => List.length meta = List.length atts) metas /\
    Forall (fun rec => List.length rec = List.length atts) recs.
Proof.
  unfold decode. intros H.
  apply bind_Ok_inv in H as ([off metas] & Hfp & Hsp). simpl in Hsp.
  exists off, metas. split; [exact Hfp |].
  apply first_pass_measured in Hfp.
  apply measured_all_contiguous in Hfp as (_ & _ & Hf).
  unfold second_pass in Hsp. apply mapM_Ok_Forall2 in Hsp.
  split; [symmetry; exact (Forall2_length Hsp) |]. split; [exact Hf |].
  clear - Hsp Hf. induction Hsp as [| meta rec metas recs Hx _ IH].
  - constructor.
  - inversion Hf as [| m ms Hm Hms]; subst.
    constructor; [| apply IH; exact Hms].
    apply extract_length in Hx. rewrite Hx, Hm. apply Nat.min_id.
Qed.

Lemma scan_record_no_diverge (atts : list Att) (buf : list byte) (off : nat)
      (acc : list (nat * nat)) :
  (forall a o, In a atts -> itemsize a buf o <> Diverge) ->
  scan_record itemsize atts buf off acc <> Diverge.
Proof.
  revert off acc; induction atts as [| a atts IH]; intros off acc Hnd; simpl.
  - discriminate.
  - destruct (itemsize a buf off) as [sz | e |] eqn:E; simpl.
    + apply IH. intros a' o Ha'. apply Hnd. right; exact Ha'.
    + discriminate.
    + exfalso. apply (Hnd a off); [left; reflexivity | exact E].
Qed.

Lemma measured_progress (atts : list Att) (buf : list byte) (off off' : nat)
      (meta : list (nat * nat)) (a : Att) :
  In a atts ->
  (forall o sz, itemsize a buf o = Ok sz -> 1 <= sz) ->
  measured itemsize buf atts off meta off' -> off < off'.
Proof.
  intros Hin Hpos Hm; induction Hm as [off | a' atts off sz meta off' Hsz Hrest IH].
  - destruct Hin.
  - pose proof (measured_contiguous _ _ _ _ _ _ Hrest) as (_ & _ & Hle & _).
    destruct Hin as [-> | Hin].
    + apply Hpos in Hsz. lia.
    + specialize (IH Hin). lia.
Qed.

Lemma scan_progress_no_diverge (atts : list Att) (buf : list byte) (a : Att) :
  (forall a' o, In a' atts -> itemsize a' buf o <> Diverge) ->
  In a atts ->
  (forall o sz, itemsize a buf o = Ok sz -> 1 <= sz) ->
  forall fuel off acc,
    List.length buf - off <= fuel ->
    scan itemsize fuel atts buf off acc <> Diverge.
Proof.
  intros Hnd Hin Hpos fuel; induction fuel as [| fuel IH]; intros off acc Hfuel.
  - rewrite scan_done by lia. discriminate.
  - destruct (Nat.lt_ge_cases off (List.length buf)) as [Hlt | Hge].
    + rewrite scan_step by exact Hlt.
      destruct (scan_record itemsize atts buf off []) as [[o m] | e |] eqn:E; simpl.
      * pose proof (proj1 (scan_record_measured _ _ _ _ _ _) E) as Hm.
        apply (measured_progress _ _ _ _ _ a Hin Hpos) in Hm.
        apply IH. lia.
      * discriminate.
      * exfalso. exact (scan_record_no_diverge _ _ _ _ Hnd E).
    + rewrite scan_done by exact Hge. discriminate.
Qed.

Lemma measured_all_count (atts : list Att) (buf : list byte) (a : Att)
      (off off' : nat) (metas : list (list (nat * nat))) :
  In a atts ->
  (forall o sz, itemsize a buf o = Ok sz -> 1 <= sz) ->
  measured_all itemsize atts buf off metas off' ->
  List.length metas <= List.length buf - off.
Proof.
  intros Hin Hpos; induction 1 as [off Hge | off meta o' metas o'' Hlt Hm Hall IH];
    simpl.
  - lia.
  - apply (measured_progress _ _ _ _ _ a Hin Hpos) in Hm. lia.
Qed.

(** X2.  When no field makes [itemsize] loop and one field at least
    always has a positive width, the first loop ends, and it makes at
    most [len(buf)] turns. *)
Theorem first_pass_terminates (atts : list Att) (buf : list byte) (a : Att) :
  (forall a' o, In a' atts -> itemsize a' buf o <> Diverge) ->
  In a atts ->
  (forall o sz, itemsize a buf o = Ok sz -> 1 <= sz) ->
  first_pass itemsize atts buf <> Diverge /\
  (forall off metas,
      first_pass itemsize atts buf = Ok (off, metas) ->
      List.length metas <= List.length buf).
Proof.
  intros Hnd Hin Hpos. split.
  - unfold first_pass. apply (scan_progress_no_diverge _ _ a Hnd Hin Hpos). lia.
  - intros off metas H. apply first_pass_measured in H.
    apply (measured_all_count _ _ a _ _ _ Hin Hpos) in H. lia.
Qed.

(** X3.  When the fields of one record take no byte at all -- in
    particular when there is no field -- the first loop never ends on a
    buffer that is not empty: no amount of fuel makes it return. *)
Theorem first_pass_stuck (atts : list Att) (buf : list byte)
        (meta : list (nat * nat)) :
  buf <> [] ->
  scan_record itemsize atts buf 0 [] = Ok (0, meta) ->
  first_pass itemsize atts buf = Diverge /\
  forall fuel acc, scan itemsize fuel atts buf 0 acc = Diverge.
Proof.
  intros Hne Hrec.
  assert (Hlt : 0 < List.length buf) by (destruct buf; [congruence | simpl; lia]).
  split.
  - unfold first_pass. apply (scan_stuck itemsize atts buf 0 meta Hlt Hrec).
  - apply (scan_stuck itemsize atts buf 0 meta Hlt Hrec).
Qed.

(** X4.  On an empty buffer the decoder calls neither method and
    returns no record, whatever the fields; and the empty buffer is the
    only one for which it returns no record: a buffer that is not empty
    gives at least one record, or an exception, or no answer. *)
Theorem decode_empty_buffer (atts : list Att) (buf : list byte) (promo : bool) :
  decode itemsize frombytes atts buf promo = Ok [] <-> buf = [].
Proof.
  split.
  - unfold decode. intros H.
    apply bind_Ok_inv in H as ([off metas] & Hfp & Hsp). simpl in Hsp.
    unfold second_pass in Hsp. apply mapM_Ok_Forall2 in Hsp.
    inversion Hsp; subst.
    apply first_pass_measured in Hfp. inversion Hfp as [o Hge |]; subst.
    destruct buf; [reflexivity | simpl in Hge; lia].
  - intros ->. reflexivity.
Qed.

End LoopShape.

(** ** Requests *)

Lemma dict_get_set (d : list (string * Py.value)) (k k' : string) (v : Py.value) :
  dict_get (Py.dict_set d k v) k' =
  if String.eqb k' k then Some v else dict_get d k'.
Proof.
  induction d as [| [k0 v0] d IH]; simpl.
  - reflexivity.
  - destruct (String.eqb_spec k k0) as [-> | Hne]; simpl.
    + destruct (String.eqb_spec k' k0); reflexivity.
    + rewrite IH. destruct (String.eqb_spec k' k0) as [-> | Hne'].
      * destruct (String.eqb_spec k0 k); [congruence | reflexivity].
      * reflexivity.
Qed.

Lemma endpoint_cases (e : Shim) :
  Shim_eqb e cancel || Shim_eqb e execute_query = true <->
  e = cancel \/ e = execute_query.
Proof.
  destruct e; simpl; split; intros H; auto; try discriminate;
    destruct H; discriminate.
Qed.

(** X5.  In a connection that holds SciDB credentials, the requests to
    [execute_query] and [cancel] carry the user and the password, in
    place of any argument of the same name, and every other argument as
    given; the requests to the other endpoints carry the arguments as
    given, so the password goes nowhere else.  Without credentials every
    request carries the arguments as given. *)
Theorem shim_request_credentials (d : DB) (e : Shim)
        (kwargs : list (string * Py.value)) :
  (forall u p,
      _scidb_auth d = Some [("user", Py.VStr u); ("password", Py.VStr p)]%string ->
      (e = cancel \/ e = execute_query ->
       dict_get (req_params (shim_request d e kwargs)) "user" = Some (Py.VStr u) /\
       dict_get (req_params (shim_request d e kwargs)) "password" = Some (Py.VStr p) /\
       forall k, k <> "user"%string -> k <> "password"%string ->
                 dict_get (req_params (shim_request d e kwargs)) k = dict_get kwargs k) /\
      (e <> cancel -> e <> execute_query ->
       req_params (shim_request d e kwargs) = kwargs)) /\
  (_scidb_auth d = None -> req_params (shim_request d e kwargs) = kwargs) /\
  req_url (shim_request d e kwargs) = scidb_url d /\
  req_endpoint (shim_request d e kwargs) = e /\
  req_auth (shim_request d e kwargs) = _http_auth d /\
  req_verify (shim_request d e kwargs) = verify d.
Proof.
  split; [| split; [| repeat split]].
  - intros u p Hauth. unfold shim_request. rewrite Hauth. simpl req_params. split.
    + intros He. apply endpoint_cases in He. rewrite He.
      unfold Py.dict_update. simpl. rewrite !dict_get_set. simpl.
      repeat split.
      intros k Hu Hp. rewrite !dict_get_set.
      destruct (String.eqb_spec k "password"); [contradiction |].
      destruct (String.eqb_spec k "user"); [contradiction | reflexivity].
    + intros Hc Hx.
      destruct (Shim_eqb e cancel || Shim_eqb e execute_query) eqn:He;
        [| reflexivity].
      apply endpoint_cases in He. tauto.
  - intros Hnone. unfold shim_request. rewrite Hnone. reflexivity.
Qed.

Section ShimFacts.

Variable remote : list Request -> Request -> option (list byte).
Variable text : list byte -> string.
Variable str_split : string -> list string.

Lemma shim_run (d : DB) (e : Shim) (kwargs : list (string * Py.value))
      (log : list Request) :
  _shim remote d e kwargs log =
  (match remote log (shim_request d e kwargs) with
   | Some c => Ok c
   | None => Raise HTTPError
   end, log ++ [shim_request d e kwargs]).
Proof.
  unfold _shim. destruct (remote log (shim_request d e kwargs)); reflexivity.
Qed.

(** What [iquery_readlines] does, request by request. *)
Lemma iquery_readlines_inv (d : DB) (q : string) (log log' : list Request)
      (r : result (list string)) :
  iquery_readlines remote text str_split d q log = (r, log') ->
  exists reqs,
    log' = log ++ reqs /\
    reqs <> [] /\
    endpoints reqs = firstn (List.length reqs) readlines_endpoints /\
    Forall (fun rq => exists e k, rq = shim_request d e k) reqs /\
    (r = Raise HTTPError \/
     (endpoints reqs = readlines_endpoints /\
      exists l rq resp,
        req_endpoint rq = read_bytes /\ remote l rq = Some resp /\
        r = Ok (str_split (text resp)))).
Proof.
  unfold iquery_readlines, bindM. rewrite shim_run.
  destruct (remote log _) as [id |] eqn:E1.
  2:{ intros H; injection H as <- <-. eexists; split; [reflexivity |].
      split; [discriminate |]. split; [reflexivity |].
      split; [repeat constructor; eexists; eexists; reflexivity | left; reflexivity]. }
  rewrite shim_run. destruct (remote (log ++ _) _) as [c2 |] eqn:E2.
  2:{ intros H; injection H as <- <-. rewrite <- app_assoc.
      eexists; split; [reflexivity |].
      split; [discriminate |]. split; [reflexivity |].
      split; [repeat constructor; eexists; eexists; reflexivity | left; reflexivity]. }
  rewrite shim_run. destruct (remote ((log ++ _) ++ _) _) as [resp |] eqn:E3.
  2:{ intros H; injection H as <- <-. rewrite <- !app_assoc.
      eexists; split; [reflexivity |].
      split; [discriminate |]. split; [reflexivity |].
      split; [repeat constructor; eexists; eexists; reflexivity | left; reflexivity]. }
  rewrite shim_run. destruct (remote (((log ++ _) ++ _) ++ _) _) as [c4 |] eqn:E4.
  2:{ intros H; injection H as <- <-. rewrite <- !app_assoc.
      eexists; split; [reflexivity |].
      split; [discriminate |]. split; [reflexivity |].
      split; [repeat constructor; eexists; eexists; reflexivity | left; reflexivity]. }
  unfold ret. intros H; injection H as <- <-. rewrite <- !app_assoc.
  eexists; split; [reflexivity |].
  split; [discriminate |]. split; [reflexivity |].
  split; [repeat constructor; eexists; eexists; reflexivity |].
  right. split; [reflexivity |].
  eexists; eexists; exists resp. split; [| split; [exact E3 | reflexivity]].
  reflexivity.
Qed.

(** X6.  [iquery_readlines], and with it [dir(db.arrays)], sends its
    requests in the order [new_session], [execute_query], [read_bytes],
    [release_session] and stops at the first one the server refuses,
    raising [HTTPError]: a refusal before the last request leaves the
    session unreleased.  When it returns, all four were sent and the
    result is what [split()] gives on the text of what [read_bytes]
    answered. *)
Theorem iquery_readlines_protocol (d : DB) (q : string) (log log' : list Request)
        (r : result (list string)) :
  iquery_readlines remote text str_split d q log = (r, log') ->
  exists reqs,
    log' = log ++ reqs /\
    reqs <> [] /\
    endpoints reqs = firstn (List.length reqs) readlines_endpoints /\
    (List.length reqs < 4 ->
     r = Raise HTTPError /\ ~ In release_session (endpoints reqs)) /\
    (forall ws, r = Ok ws ->
       endpoints reqs = readlines_endpoints /\
       exists l rq resp,
         req_endpoint rq = read_bytes /\ remote l rq = Some resp /\
         ws = str_split (text resp)) /\
    (r = Raise HTTPError \/ exists ws, r = Ok ws) /\
    (forall a, Arrays_dir remote text str_split a = iquery_readlines remote text str_split (_db a)
                                       "project(list(), name)").
Proof.
  intros H. apply iquery_readlines_inv in H as (reqs & Hlog & Hne & Hend & _ & Hr).
  exists reqs. split; [exact Hlog |]. split; [exact Hne |]. split; [exact Hend |].
  split; [| split; [| split]].
  - intros Hlen. split.
    + destruct Hr as [Hr | (Hall & _)]; [exact Hr |].
      apply (f_equal (@List.length Shim)) in Hall.
      unfold endpoints in Hall. rewrite length_map in Hall. simpl in Hall. lia.
    + rewrite Hend.
      destruct reqs as [| r1 [| r2 [| r3 [| r4 t]]]]; simpl in *;
        try lia; intros Hin; repeat (destruct Hin as [Hin | Hin]; try discriminate);
        exact Hin.
  - intros ws Hws. destruct Hr as [Hr | (Hall & l & rq & resp & He & Ha & Hr)].
    + congruence.
    + split; [exact Hall |]. exists l, rq, resp.
      split; [exact He |]. split; [exact Ha |]. congruence.
  - destruct Hr as [Hr | (_ & l & rq & resp & _ & _ & Hr)];
      [left; exact Hr | right; eexists; exact Hr].
  - reflexivity.
Qed.

End ShimFacts.

(** ** The constructor *)

Section InitFacts.

Variable remote : list Request -> Request -> option (list byte).
Variable text : list byte -> string.
Variable str_split : string -> list string.

(** What [DB.__init__] does: it raises on its arguments before anything
    is sent, or it builds the connection and asks for the operators. *)
Lemma DB_init_inv (url : string) (sa ha : option (list string))
      (role namespace : option string) (verify : option bool)
      (log log' : list Request) (r : result DB) :
  DB_init remote text str_split url sa ha role namespace verify log = (r, log') ->
  (log' = log /\
   (r = Raise TypeError \/ r = Raise IndexError \/
    r = Raise (Exception "SciDB credentials can only be used with https connections")))
  \/
  ((ha = None \/ ha = Some [] \/ exists hu hp, ha = Some [hu; hp]) /\
   (sa = None \/ sa = Some [] \/
    exists u p rest, sa = Some (u :: p :: rest) /\
                     Py.startswith (Py.lower url) "https" = true) /\
   let self0 :=
     mkDB url role namespace verify
          (match ha with Some [hu; hp] => Some (mkDigest hu hp) | _ => None end)
          (option_map (fun u => (u, PASSWORD_PROVIDED)) (auth_user ha))
          (match sa with
           | Some (u :: p :: _) =>
               Some [("user", Py.VStr u); ("password", Py.VStr p)]%string
           | _ => None
           end)
          (option_map (fun u => (u, PASSWORD_PROVIDED)) (auth_user sa))
          [] in
   exists r0,
     iquery_readlines remote text str_split self0 "project(list('operators'), name)" log = (r0, log') /\
     r = bind r0 (fun ops =>
                    Ok (set_operators self0
                          (Py.sort (ops ++ ["arrays"; "iquery"; "iquery_readlines"]%string))))).
Proof.
  unfold DB_init, bindM, ret, raise.
  destruct ha as [[| hu [| hp [| hx ht]]] |];
    destruct sa as [[| u [| p rest]] |];
    destruct (Py.startswith (Py.lower url) "https") eqn:Hs; simpl;
    try (intros H; injection H as <- <-; left; split; [reflexivity | tauto]);
    match goal with
    | |- context [iquery_readlines remote text str_split ?s ?q log] =>
        destruct (iquery_readlines remote text str_split s q log) as [r0 l0] eqn:Hq
    end;
    intros H; right;
    (split; [eauto 6 |]); (split; [eauto 8 |]);
    exists r0; destruct r0; injection H as <- <-; split; reflexivity.
Qed.

(** X7.  [DB.__init__] checks its arguments before it sends anything:
    when it raises [TypeError], [IndexError] or the exception about
    https, no request was sent.  Every other outcome went through the
    four requests of the operator listing: a connection is returned off
    exactly [new_session], [execute_query], [read_bytes],
    [release_session], and an [HTTPError] off a prefix of them.  The
    constructor always returns or raises. *)
Theorem DB_init_requests (url : string) (sa ha : option (list string))
        (role namespace : option string) (verify : option bool)
        (log log' : list Request) (r : result DB) :
  DB_init remote text str_split url sa ha role namespace verify log = (r, log') ->
  match r with
  | Ok d =>
      exists reqs, log' = log ++ reqs /\ endpoints reqs = readlines_endpoints
  | Raise HTTPError =>
      exists reqs, log' = log ++ reqs /\ reqs <> [] /\
                   endpoints reqs = firstn (List.length reqs) readlines_endpoints
  | Raise _ => log' = log
  | Diverge => False
  end.
Proof.
  intros H. apply DB_init_inv in H as [(Hlog & Hr) | (_ & _ & r0 & Hq & Hr)].
  - destruct Hr as [-> | [-> | ->]]; exact Hlog.
  - apply iquery_readlines_inv in Hq as (reqs & Hlog & Hne & Hend & _ & Hr0).
    destruct Hr0 as [-> | (Hall & l & rq & resp & _ & _ & ->)]; subst r; simpl.
    + exists reqs. repeat split; assumption.
    + exists reqs. split; assumption.
Qed.

Lemma insert_sorted_In (x y : string) (l : list string) :
  In y (Py.insert_sorted x l) <-> y = x \/ In y l.
Proof.
  induction l as [| z l IH]; simpl.
  - split; intros [H | H]; auto.
  - destruct (String.leb x z); simpl.
    + split; intros [H | H]; auto.
    + rewrite IH. split; intros H; tauto || (destruct H as [H | [H | H]]; auto).
Qed.

Lemma sort_In (y : string) (l : list string) : In y (Py.sort l) <-> In y l.
Proof.
  unfold Py.sort. induction l as [| x l IH]; simpl.
  - tauto.
  - rewrite insert_sorted_In, IH. split; intros [H | H]; auto.
Qed.

Lemma insert_sorted_sorted (x : string) (l : list string) :
  LocallySorted (fun a b => String.leb a b = true) l ->
  LocallySorted (fun a b => String.leb a b = true) (Py.insert_sorted x l).
Proof.
  induction 1 as [| a | a b l Hl IH Hab]; simpl.
  - constructor.
  - destruct (String.leb x a) eqn:E.
    + constructor; [constructor | exact E].
    + constructor; [constructor |].
      destruct (String.leb_total x a); congruence.
  - destruct (String.leb x a) eqn:E.
    + constructor; [constructor; assumption | exact E].
    + simpl in IH. destruct (String.leb x b) eqn:E'.
      * constructor; [exact IH |].
        destruct (String.leb_total x a); congruence.
      * constructor; [exact IH | exact Hab].
Qed.

Lemma sort_sorted (l : list string) :
  LocallySorted (fun a b => String.leb a b = true) (Py.sort l).
Proof.
  unfold Py.sort. induction l as [| x l IH]; simpl.
  - constructor.
  - apply insert_sorted_sorted. exact IH.
Qed.

(** X8.  In a connection [DB.__init__] returns, the list of operators,
    which is what [dir(db)] shows, is sorted and holds exactly the words
    that [split()] cuts out of the text of the server's answer to
    [read_bytes], together with [arrays], [iquery] and
    [iquery_readlines]; [__getattr__] builds an expression, with no
    argument, for exactly these names and raises [AttributeError], with
    the [repr] of the class name and of the attribute in its message,
    for every other name. *)
Theorem DB_init_operators (url : string) (sa ha : option (list string))
        (role namespace : option string) (verify : option bool)
        (log log' : list Request) (d : DB) :
  DB_init remote text str_split url sa ha role namespace verify log = (Ok d, log') ->
  LocallySorted (fun a b => String.leb a b = true) (DB_dir d) /\
  (exists l rq resp,
      req_endpoint rq = read_bytes /\ remote l rq = Some resp /\
      forall n, In n (DB_dir d) <->
                In n (str_split (text resp)) \/
                In n ["arrays"; "iquery"; "iquery_readlines"]%string) /\
  (forall repr_str n,
      In n (DB_dir d) -> DB_getattr repr_str d n = Ok (SciDB_init d n [])) /\
  (forall repr_str n,
      ~ In n (DB_dir d) ->
      DB_getattr repr_str d n =
      Raise (AttributeError
               (String.append (repr_str "DB"%string)
                  (String.append " object has no attribute " (repr_str n))))).
Proof.
  intros H. apply DB_init_inv in H as [(_ & Hr) | (_ & _ & r0 & Hq & Hr)].
  { destruct Hr as [Hr | [Hr | Hr]]; discriminate. }
  apply iquery_readlines_inv in Hq as (reqs & _ & _ & _ & _ & Hr0).
  destruct Hr0 as [-> | (_ & l & rq & resp & He & Ha & ->)]; [discriminate |].
  simpl in Hr. injection Hr as ->. unfold DB_dir. simpl operators.
  split; [apply sort_sorted |]. split.
  - exists l, rq, resp. split; [exact He |]. split; [exact Ha |].
    intros n. rewrite sort_In, in_app_iff. reflexivity.
  - split.
    + intros repr_str n Hn. unfold DB_getattr. simpl operators.
      apply contains_In in Hn. rewrite Hn. reflexivity.
    + intros repr_str n Hn. unfold DB_getattr. simpl operators.
      destruct (Py.contains _ n) eqn:E.
      * apply contains_In in E. contradiction.
      * reflexivity.
Qed.

Lemma iquery_readlines_answers (d : DB) (q : string) (log : list Request) :
  (forall l rq, remote l rq <> None) ->
  exists ws log',
    iquery_readlines remote text str_split d q log = (Ok ws, log').
Proof.
  intros Hans.
  assert (Hsome : forall l rq, exists c, remote l rq = Some c).
  { intros l rq. destruct (remote l rq) as [c |] eqn:E;
      [exists c; reflexivity | exfalso; exact (Hans l rq E)]. }
  unfold iquery_readlines, bindM, ret.
  repeat (rewrite shim_run;
          match goal with
          | |- context [remote ?l ?rq] =>
              let c := fresh "c" in
              let E := fresh "E" in
              destruct (Hsome l rq) as (c & E); rewrite E; clear E
          end).
  eexists; eexists; reflexivity.
Qed.

(** X9.  Without SciDB credentials ([None] or an empty tuple) the
    constructor accepts any URL, whatever its scheme: it never raises
    the exception about https nor [IndexError], and when the HTTP
    credentials are absent or a pair and the server answers, it returns
    a connection.  That connection stores the URL, the role, the
    namespace and [verify] as given, keeps no SciDB credentials, sends
    every request with its arguments as given, and holds the HTTP user
    with a placeholder in the public field and the Digest object with
    the password in the private one. *)
Theorem DB_init_without_credentials (url : string) (sa ha : option (list string))
        (role namespace : option string) (verify : option bool)
        (log : list Request) :
  sa = None \/ sa = Some [] ->
  (forall r log',
      DB_init remote text str_split url sa ha role namespace verify log = (r, log') ->
      r <> Raise IndexError /\ forall msg, r <> Raise (Exception msg)) /\
  ((ha = None \/ ha = Some [] \/ exists hu hp, ha = Some [hu; hp]) ->
   (forall l rq, remote l rq <> None) ->
   exists d log',
     DB_init remote text str_split url sa ha role namespace verify log = (Ok d, log') /\
     scidb_url d = url /\ Db.role d = role /\ Db.namespace d = namespace /\
     Db.verify d = verify /\
     _scidb_auth d = None /\ scidb_auth d = None /\
     (forall e kwargs, req_params (shim_request d e kwargs) = kwargs) /\
     http_auth d = option_map (fun u => (u, PASSWORD_PROVIDED)) (auth_user ha) /\
     _http_auth d = match ha with
                    | Some [hu; hp] => Some (mkDigest hu hp)
                    | _ => None
                    end).
Proof.
  intros Hsa. split.
  - intros r log' H.
    destruct Hsa as [-> | ->]; unfold DB_init, bindM, ret, raise in H;
      destruct ha as [[| hu [| hp [| hx ht]]] |]; simpl in H;
      try (injection H as <- <-; split; [discriminate | intros msg; discriminate]);
      match type of H with
      | context [iquery_readlines remote text str_split ?s ?q log] =>
          destruct (iquery_readlines remote text str_split s q log) as [r0 l0] eqn:Hq
      end;
      apply iquery_readlines_inv in Hq as (reqs & _ & _ & _ & _ & Hr0);
      destruct Hr0 as [-> | (_ & l & rq & resp & _ & _ & ->)];
      injection H as <- <-; split; try discriminate; intros msg; discriminate.
  - intros Hwf Hans.
    destruct Hsa as [-> | ->];
      destruct Hwf as [-> | [-> | (hu & hp & ->)]];
      unfold DB_init, bindM, ret; simpl;
      match goal with
      | |- context [iquery_readlines remote text str_split ?s ?q log] =>
          destruct (iquery_readlines_answers s q log Hans) as (ws & l' & E);
          rewrite E
      end;
      eexists; eexists; (split; [reflexivity |]); simpl;
      repeat split; reflexivity.
Qed.

End InitFacts.


(** ** [iquery] *)

Section QueryFacts.

Variable remote : list Request -> Request -> option (list byte).
Variable text : list byte -> string.
Variable str_split : string -> list string.
Variable Schema_fromstring : string -> result Schema.
Variable Schema_format_h : Schema -> string.
Variable atts_fmt : Schema -> string.

(** X11.  Without [fetch], [iquery] ignores [atts_only],
    [as_dataframe], [dataframe_promo] and [schema]: it opens a session,
    executes the query in it with [release=1], and returns [None]; it
    sends neither [read_bytes] nor [release_session] and parses no
    schema. *)
Theorem iquery_without_fetch (d : DB) (q : string) (a : iquery_args)
        (log : list Request) :
  fetch a = false ->
  iquery remote text Schema_fromstring Schema_format_h atts_fmt d q a log =
  let r1 := shim_request d new_session [] in
  match remote log r1 with
  | None => (Raise HTTPError, log ++ [r1])
  | Some id =>
      let r2 := shim_request d execute_query
                  [("id", Py.VStr (text id)); ("query", Py.VStr q);
                   ("release", Py.VInt 1)]%string in
      match remote (log ++ [r1]) r2 with
      | None => (Raise HTTPError, log ++ [r1; r2])
      | Some _ => (Ok RNone, log ++ [r1; r2])
      end
  end.
Proof.
  intros Hf. unfold iquery, bindM. rewrite shim_run. cbv zeta.
  destruct (remote log (shim_request d new_session [])) as [id |]; [| reflexivity].
  rewrite Hf, shim_run.
  destruct (remote _ _); rewrite <- app_assoc; reflexivity.
Qed.

(** X12.  With [fetch], the requests of [iquery] follow a fixed order:
    [new_session], then -- when no schema is given -- [execute_query]
    and [read_bytes] for the schema, then [execute_query], [read_bytes]
    and [release_session].  [iquery] stops at the first refusal, or when
    the schema text does not parse, and then the session is not
    released; it returns a result only after [release_session] was
    sent. *)
Theorem iquery_fetch_protocol (d : DB) (q : string) (a : iquery_args)
        (log log' : list Request) (r : result iquery_result) :
  fetch a = true ->
  iquery remote text Schema_fromstring Schema_format_h atts_fmt d q a log = (r, log') ->
  exists reqs,
    log' = log ++ reqs /\
    reqs <> [] /\
    endpoints reqs = firstn (List.length reqs) (fetch_endpoints a) /\
    Forall (fun rq => exists e k, rq = shim_request d e k) reqs /\
    (forall res, r = Ok res -> endpoints reqs = fetch_endpoints a) /\
    (List.length reqs < List.length (fetch_endpoints a) ->
     ~ In release_session (endpoints reqs)).
Proof.
  intros Hf. unfold iquery, bindM, fetch_endpoints. rewrite Hf.
  assert (Hfin : forall (reqs : list Request) (eps : list Shim) (r0 : result iquery_result),
             reqs <> [] ->
             endpoints reqs = firstn (List.length reqs) eps ->
             Forall (fun rq => exists e k, rq = shim_request d e k) reqs ->
             (forall res, r0 = Ok res -> endpoints reqs = eps) ->
             (List.length reqs < List.length eps ->
              ~ In release_session (endpoints reqs)) ->
             (r0, log ++ reqs) = (r, log') ->
             exists reqs',
               log' = log ++ reqs' /\ reqs' <> [] /\
               endpoints reqs' = firstn (List.length reqs') eps /\
               Forall (fun rq => exists e k, rq = shim_request d e k) reqs' /\
               (forall res, r = Ok res -> endpoints reqs' = eps) /\
               (List.length reqs' < List.length eps ->
                ~ In release_session (endpoints reqs'))).
  { intros reqs eps r0 H1 H2 H3 H4 H5 H. injection H as <- <-.
    exists reqs. repeat split; assumption. }
  rewrite shim_run.
  destruct (remote log _) as [id |].
  2:{ destruct (schema a) as [[s | [| c s]] |]; apply Hfin;
        try discriminate; try reflexivity;
        try (repeat constructor; eexists; eexists; reflexivity);
        simpl; intros _ Hin; repeat (destruct Hin as [Hin | Hin]; try discriminate);
        exact Hin. }
  destruct (schema a) as [[s | [| c s]] |]; unfold ret, lift;
    repeat (rewrite shim_run;
            match goal with
            | |- context [remote ?l ?rq] => destruct (remote l rq)
            end);
    try match goal with
        | |- context [Schema_fromstring ?t] => destruct (Schema_fromstring t)
        end;
    repeat (rewrite shim_run;
            match goal with
            | |- context [remote ?l ?rq] => destruct (remote l rq)
            end);
    rewrite <- ?app_assoc; apply Hfin;
    try discriminate; try reflexivity;
    try (repeat constructor; eexists; eexists; reflexivity);
    try (simpl; intros Hlen; lia);
    simpl; intros _ Hin; repeat (destruct Hin as [Hin | Hin]; try discriminate);
    exact Hin.
Qed.

(** X13.  With [fetch] and no schema (or an empty schema string), and a
    server that answers, [iquery] first executes [show] on the query,
    its single quotes escaped, in the session it opened, reads the
    answer and parses it as the schema; it then fetches as with a given
    schema and returns what [iquery_records] makes of the buffer. *)
Theorem iquery_fetch_asks_schema (d : DB) (q : string) (a : iquery_args)
        (sch : Schema) (log : list Request) (id c2 resp c4 buf c6 : list byte) :
  fetch a = true ->
  schema a = None \/ schema a = Some (inr EmptyString) ->
  let sch' := fetch_schema (atts_only a) sch in
  let q' := if atts_only a then q else unpack_query Schema_format_h q sch in
  let r1 := shim_request d new_session [] in
  let r2 := shim_request d execute_query
              [("id", Py.VStr (text id)); ("query", Py.VStr (show_query q));
               ("save", Py.VStr "tsv")]%string in
  let r3 := shim_request d read_bytes
              [("id", Py.VStr (text id)); ("n", Py.VInt 0)]%string in
  let r4 := shim_request d execute_query
              [("id", Py.VStr (text id)); ("query", Py.VStr q');
               ("save", Py.VStr (atts_fmt sch'))]%string in
  let r5 := shim_request d read_bytes
              [("id", Py.VStr (text id)); ("n", Py.VInt 0)]%string in
  let r6 := shim_request d release_session [("id", Py.VStr (text id))]%string in
  remote log r1 = Some id ->
  remote (log ++ [r1]) r2 = Some c2 ->
  remote ((log ++ [r1]) ++ [r2]) r3 = Some resp ->
  Schema_fromstring (text resp) = Ok sch ->
  remote (((log ++ [r1]) ++ [r2]) ++ [r3]) r4 = Some c4 ->
  remote ((((log ++ [r1]) ++ [r2]) ++ [r3]) ++ [r4]) r5 = Some buf ->
  remote (((((log ++ [r1]) ++ [r2]) ++ [r3]) ++ [r4]) ++ [r5]) r6 = Some c6 ->
  iquery remote text Schema_fromstring Schema_format_h atts_fmt d q a log =
  (iquery_records a sch' buf, log ++ [r1; r2; r3; r4; r5; r6]).
Proof.
  intros Hf Hs sch' q' r1 r2 r3 r4 r5 r6 H1 H2 H3 Hsch H4 H5 H6.
  unfold iquery, bindM. rewrite shim_run. fold r1. rewrite H1, Hf.
  assert (Hparse :
            (match schema a with
             | Some (inl s) => ret s
             | Some (inr (String c s)) => lift (Schema_fromstring (String c s))
             | _ =>
                 fun log0 =>
                   let (r, log'0) :=
                     _shim remote d execute_query
                           [("id", Py.VStr (text id));
                            ("query", Py.VStr (show_query q));
                            ("save", Py.VStr "tsv")]%string log0 in
                   match r with
                   | Ok _ =>
                       let (r0, log'1) :=
                         _shim remote d read_bytes
                               [("id", Py.VStr (text id)); ("n", Py.VInt 0)]%string
                               log'0 in
                       match r0 with
                       | Ok a1 => lift (Schema_fromstring (text a1)) log'1
                       | Raise e => (Raise e, log'1)
                       | Diverge => (Diverge, log'1)
                       end
                   | Raise e => (Raise e, log'0)
                   | Diverge => (Diverge, log'0)
                   end
             end) (log ++ [r1]) = (Ok sch, ((log ++ [r1]) ++ [r2]) ++ [r3])).
  { destruct Hs as [-> | ->]; rewrite shim_run; fold r2; rewrite H2;
      rewrite shim_run; fold r3; rewrite H3; unfold lift; rewrite Hsch; reflexivity. }
  unfold bindM in Hparse. rewrite Hparse.
  fold sch' q'. rewrite shim_run. fold r4. rewrite H4.
  rewrite shim_run. fold r5. rewrite H5.
  rewrite shim_run. fold r6. rewrite H6.
  unfold lift. rewrite <- !app_assoc. reflexivity.
Qed.

(** X15.  The arguments of an expression are those of the last call:
    calling an expression that was called before gives what calling it
    afresh gives, and in a chain of calls on a lazy expression only the
    last call counts. *)
Theorem SciDB_call_last_wins (e : SciDB) (args1 args2 : list Py.value)
        (log : list Request) :
  SciDB_call remote text Schema_fromstring Schema_format_h atts_fmt
             (set_args e args1) args2 log =
  SciDB_call remote text Schema_fromstring Schema_format_h atts_fmt e args2 log /\
  (is_lazy e = true ->
   exists e1,
     SciDB_call remote text Schema_fromstring Schema_format_h atts_fmt e args1 log =
     (Ok (e1, ReturnedSelf), log) /\
     SciDB_call remote text Schema_fromstring Schema_format_h atts_fmt e1 args2 log =
     SciDB_call remote text Schema_fromstring Schema_format_h atts_fmt e args2 log).
Proof.
  split; [reflexivity |].
  intros Hlazy. unfold SciDB_call at 1. simpl.
  destruct (Py.startswith (Py.lower (operator e)) "create_array"
            && (List.length args1 <? 3)); simpl; rewrite Hlazy;
    eexists; split; reflexivity.
Qed.

End QueryFacts.

Lemma replace_quote_escaped (esc : bool) (s : string) :
  quotes_escaped esc (Py.replace_char "'"%char "\'" s) = true.
Proof.
  revert esc; induction s as [| c s IH]; intros esc; simpl.
  - reflexivity.
  - destruct (Ascii.eqb_spec c "'"%char) as [-> | Hne]; simpl.
    + apply IH.
    + destruct (Ascii.eqb_spec c "'"%char); [contradiction | apply IH].
Qed.

Lemma replace_no_quote (s : string) :
  (forall c, In c (list_ascii_of_string s) -> c <> "'"%char) ->
  Py.replace_char "'"%char "\'" s = s.
Proof.
  induction s as [| c s IH]; simpl; intros H.
  - reflexivity.
  - destruct (Ascii.eqb_spec c "'"%char) as [-> | Hne].
    + exfalso. apply (H "'"%char); [left; reflexivity | reflexivity].
    + rewrite IH; [reflexivity |]. intros c' Hc'. apply H. right; exact Hc'.
Qed.

(** X16.  In the query that [show_query] builds, every single quote
    that comes from the user's query stands right after a backslash, and
    a query without single quotes is passed as it is.  Backslashes are
    not doubled. *)
Theorem show_query_escapes_quotes (q : string) :
  (exists q', show_query q = String.append "show('" (String.append q' "', 'afl')") /\
              quotes_escaped false q' = true /\
              String.length q <= String.length q') /\
  ((forall c, In c (list_ascii_of_string q) -> c <> "'"%char) ->
   show_query q = String.append "show('" (String.append q "', 'afl')")) /\
  show_query "\" = "show('\', 'afl')"%string.
Proof.
  split; [| split].
  - exists (Py.replace_char "'"%char "\'" q). split; [reflexivity |].
    split; [apply replace_quote_escaped |].
    induction q as [| c q IH]; simpl; [lia |].
    destruct (Ascii.eqb c "'"%char); simpl; lia.
  - intros H. unfold show_query. rewrite replace_no_quote by exact H. reflexivity.
  - reflexivity.
Qed.

(** ** More doctests of [db.py] *)

(** [DB()] and [print(DB())] *)
Example doctest_DB_repr :
  DB_repr repr_plain doc_db =
  "DB('http://localhost:8080', None, None, None, None, None)"%string.
Proof. reflexivity. Qed.

Example doctest_DB_str :
  DB_str repr_plain (doc_db_auth "bar") =
  Py.join newline
    ["scidb_url  = 'https://localhost:8083'";
     "scidb_auth = ('foo', PASSWORD_PROVIDED)";
     "http_auth  = None";
     "role       = None";
     "namespace  = None";
     "verify     = False"]%string.
Proof. reflexivity. Qed.

(** [db.build('<x:int8>[i=0:2]', 'random()')] *)
Example doctest_SciDB_repr :
  SciDB_repr repr_plain
    (set_args (SciDB_init doc_db "build" [])
              [Py.VStr "<x:int8>[i=0:2]"; Py.VStr "random()"]) =
  String.append
    "SciDB(db=DB('http://localhost:8080', None, None, None, None, None), "
    "operator='build', args=['<x:int8>[i=0:2]', 'random()'])".
Proof. reflexivity. Qed.

(** [db.missing] *)
Example doctest_missing :
  DB_getattr repr_plain doc_db "missing" =
  Raise (AttributeError "'DB' object has no attribute 'missing'").
Proof. reflexivity. Qed.

(** [db.create_array('foo', '<x:int64>[i]')] executes
    [create_array(foo, <x:int64>[i], False)]. *)
Example doctest_create_array :
  map (fun rq => dict_get (req_params rq) "query")
      (snd (SciDB_call (doc_remote []) text_bytes (fun _ => Raise SchemaMismatch)
                       (fun _ => EmptyString) (fun _ => EmptyString)
                       (SciDB_init doc_db "create_array" [])
                       [Py.VStr "foo"; Py.VStr "<x:int64>[i]"] [])) =
  [None; Some (Py.VStr "create_array(foo, <x:int64>[i], False)")].
Proof. reflexivity. Qed.

(** ** The further properties at the doctest data *)

Lemma decode_shape_witness :
  exists off metas,
    first_pass itemsize [doc_i; doc_x] doc_buf = Ok (off, metas) /\
    3 = List.length metas /\
    Forall (fun meta => List.length meta = 2) metas /\
    Forall (fun rec => List.length rec = 2)
           [[NpInt 0; NpPair 255 (NpInt 0)];
            [NpInt 1; NpPair 255 (NpInt 1)];
            [NpInt 2; NpPair 255 (NpInt 2)]].
Proof.
  exact (decode_shape itemsize frombytes [doc_i; doc_x] doc_buf false
                      [[NpInt 0; NpPair 255 (NpInt 0)];
                       [NpInt 1; NpPair 255 (NpInt 1)];
                       [NpInt 2; NpPair 255 (NpInt 2)]] eq_refl).
Defined.

Lemma first_pass_terminates_witness :
  first_pass itemsize [doc_i; doc_x] doc_buf <> Diverge.
Proof.
  refine (proj1 (first_pass_terminates itemsize [doc_i; doc_x] doc_buf doc_i _ _ _)).
  - intros a' o [<- | [<- | []]]; discriminate.
  - left; reflexivity.
  - intros o sz H. injection H as <-. repeat constructor.
Defined.

Lemma first_pass_stuck_witness :
  first_pass itemsize ([] : list Attribute) [x00] = Diverge.
Proof.
  refine (proj1 (first_pass_stuck itemsize [] [x00] [] _ _)).
  - discriminate.
  - reflexivity.
Defined.

Lemma decode_empty_buffer_witness :
  iquery_decode [doc_i; doc_x] [] true = Ok [].
Proof.
  exact (proj2 (decode_empty_buffer itemsize frombytes [doc_i; doc_x] [] true)
               eq_refl).
Defined.

Lemma shim_request_credentials_witness :
  dict_get (req_params (shim_request (doc_db_auth "bar") execute_query
                                     [("id", Py.VStr "1"); ("password", Py.VStr "x")]%string))
           "password" = Some (Py.VStr "bar") /\
  req_params (shim_request (doc_db_auth "bar") read_bytes
                           [("id", Py.VStr "1")]%string) =
  [("id", Py.VStr "1")]%string.
Proof.
  split.
  - refine (proj1 (proj2 (proj1 (proj1 (shim_request_credentials
                                          (doc_db_auth "bar") execute_query _)
                                       "foo"%string "bar"%string eq_refl) _))).
    right; reflexivity.
  - refine (proj2 (proj1 (shim_request_credentials (doc_db_auth "bar") read_bytes _)
                         "foo"%string "bar"%string eq_refl) _ _); discriminate.
Defined.

Lemma iquery_readlines_protocol_witness :
  exists reqs,
    snd (iquery_readlines (doc_remote doc_operators_answer) text_bytes Py.split doc_db
                          "project(list(), name)" []) = [] ++ reqs /\
    reqs <> [].
Proof.
  destruct (iquery_readlines_protocol
              (doc_remote doc_operators_answer) text_bytes Py.split doc_db "project(list(), name)" []
              (snd (iquery_readlines (doc_remote doc_operators_answer) text_bytes Py.split doc_db
                                     "project(list(), name)" []))
              (Ok ["aggregate"; "apply"; "xgrid"]%string) eq_refl)
    as (reqs & H1 & H2 & _).
  exists reqs. split; assumption.
Defined.

Lemma DB_init_requests_witness :
  exists reqs,
    snd (DB_init (doc_remote doc_operators_answer) text_bytes Py.split "http://localhost:8080"
                 None None None None None []) = [] ++ reqs /\
    endpoints reqs = readlines_endpoints.
Proof.
  exact (DB_init_requests (doc_remote doc_operators_answer) text_bytes Py.split
                          "http://localhost:8080" None None None None None []
                          (snd (DB_init (doc_remote doc_operators_answer) text_bytes Py.split
                                        "http://localhost:8080"
                                        None None None None None []))
                          (Ok doc_db) eq_refl).
Defined.

Lemma DB_init_operators_witness :
  LocallySorted (fun a b => String.leb a b = true) (DB_dir doc_db).
Proof.
  exact (proj1 (DB_init_operators (doc_remote doc_operators_answer) text_bytes Py.split
                                  "http://localhost:8080" None None None None None []
                                  (snd (DB_init (doc_remote doc_operators_answer) text_bytes Py.split
                                                "http://localhost:8080"
                                                None None None None None []))
                                  doc_db eq_refl)).
Defined.

Lemma DB_init_without_credentials_witness :
  exists d log',
    DB_init (doc_remote doc_operators_answer) text_bytes Py.split
            "http://localhost:8080" None None None None None [] = (Ok d, log') /\
    scidb_url d = "http://localhost:8080"%string.
Proof.
  destruct (proj2 (DB_init_without_credentials
                     (doc_remote doc_operators_answer) text_bytes Py.split
                     "http://localhost:8080" None None None None None []
                     (or_introl eq_refl))
                  (or_introl eq_refl))
    as (d & log' & Hrun & Hurl & _).
  - intros l rq. discriminate.
  - exists d, log'. split; assumption.
Defined.


Lemma iquery_without_fetch_witness :
  fst (iquery (doc_remote []) text_bytes (fun _ => Raise SchemaMismatch)
              (fun _ => EmptyString) (fun _ => EmptyString)
              doc_db "remove(foo)"
              {| fetch := false; atts_only := true; as_dataframe := true;
                 dataframe_promo := false; schema := Some (inl doc_schema) |} []) =
  Ok RNone.
Proof.
  exact (f_equal fst (iquery_without_fetch
                        (doc_remote []) text_bytes (fun _ => Raise SchemaMismatch)
                        (fun _ => EmptyString) (fun _ => EmptyString)
                        doc_db "remove(foo)"
                        {| fetch := false; atts_only := true;
                           as_dataframe := true; dataframe_promo := false;
                           schema := Some (inl doc_schema) |} [] eq_refl)).
Defined.

Lemma iquery_fetch_protocol_witness :
  exists reqs,
    snd (iquery (doc_remote (xff :: doc_int64 x00)) text_bytes (fun _ => Ok doc_schema)
                (fun _ => EmptyString) (fun _ => EmptyString)
                doc_db "scan(foo)"
                {| fetch := true; atts_only := true; as_dataframe := false;
                   dataframe_promo := true; schema := None |} []) = [] ++ reqs /\
    reqs <> [].
Proof.
  destruct (iquery_fetch_protocol
              (doc_remote (xff :: doc_int64 x00)) text_bytes (fun _ => Ok doc_schema)
              (fun _ => EmptyString) (fun _ => EmptyString)
              doc_db "scan(foo)"
              {| fetch := true; atts_only := true; as_dataframe := false;
                 dataframe_promo := true; schema := None |} []
              (snd (iquery (doc_remote (xff :: doc_int64 x00)) text_bytes (fun _ => Ok doc_schema)
                           (fun _ => EmptyString) (fun _ => EmptyString)
                           doc_db "scan(foo)"
                           {| fetch := true; atts_only := true; as_dataframe := false;
                              dataframe_promo := true; schema := None |} []))
              (Ok (RArray [("x"%string, D_null_val (D_int true 8))]
                          [[NpPair 255 (NpInt 0)]]))
              eq_refl eq_refl)
    as (reqs & H1 & H2 & _).
  exists reqs. split; assumption.
Defined.

Lemma iquery_fetch_asks_schema_witness :
  fst (iquery (doc_remote (xff :: doc_int64 x00)) text_bytes (fun _ => Ok doc_schema)
              (fun _ => EmptyString) (fun _ => EmptyString)
              doc_db "scan(foo)"
              {| fetch := true; atts_only := true; as_dataframe := false;
                 dataframe_promo := true; schema := None |} []) =
  Ok (RArray [("x"%string, D_null_val (D_int true 8))] [[NpPair 255 (NpInt 0)]]).
Proof.
  exact (f_equal fst (iquery_fetch_asks_schema
                        (doc_remote (xff :: doc_int64 x00)) text_bytes (fun _ => Ok doc_schema)
                        (fun _ => EmptyString) (fun _ => EmptyString)
                        doc_db "scan(foo)"
                        {| fetch := true; atts_only := true; as_dataframe := false;
                           dataframe_promo := true; schema := None |}
                        doc_schema []
                        (xff :: doc_int64 x00) (xff :: doc_int64 x00)
                        (xff :: doc_int64 x00) (xff :: doc_int64 x00)
                        (xff :: doc_int64 x00) (xff :: doc_int64 x00)
                        eq_refl (or_introl eq_refl)
                        eq_refl eq_refl eq_refl eq_refl eq_refl eq_refl eq_refl)).
Defined.

Lemma iquery_fetch_given_schema_witness :
  fst (iquery (doc_remote doc_buf) text_bytes (fun _ => Raise SchemaMismatch)
              (fun _ => EmptyString) (fun _ => EmptyString)
              doc_db "scan(foo)"
              {| fetch := true; atts_only := false; as_dataframe := false;
                 dataframe_promo := true; schema := Some (inl doc_schema) |} []) =
  Ok (RArray [("i"%string, D_int true 8); ("x"%string, D_null_val (D_int true 8))]
             [[NpInt 0; NpPair 255 (NpInt 0)];
              [NpInt 1; NpPair 255 (NpInt 1)];
              [NpInt 2; NpPair 255 (NpInt 2)]]).
Proof.
  exact (f_equal fst (iquery_fetch_given_schema
                        (doc_remote doc_buf) text_bytes (fun _ => Raise SchemaMismatch)
                        (fun _ => EmptyString) (fun _ => EmptyString)
                        doc_db "scan(foo)"
                        {| fetch := true; atts_only := false; as_dataframe := false;
                           dataframe_promo := true; schema := Some (inl doc_schema) |}
                        doc_schema [] doc_buf doc_buf doc_buf doc_buf
                        eq_refl eq_refl eq_refl eq_refl eq_refl eq_refl)).
Defined.

Lemma SciDB_call_last_wins_witness :
  exists e1,
    SciDB_call (doc_remote []) text_bytes (fun _ => Raise SchemaMismatch)
               (fun _ => EmptyString) (fun _ => EmptyString)
               (SciDB_init doc_db "build" []) [Py.VStr "a"] [] =
    (Ok (e1, ReturnedSelf), []) /\
    SciDB_call (doc_remote []) text_bytes (fun _ => Raise SchemaMismatch)
               (fun _ => EmptyString) (fun _ => EmptyString)
               e1 [Py.VStr "b"] [] =
    SciDB_call (doc_remote []) text_bytes (fun _ => Raise SchemaMismatch)
               (fun _ => EmptyString) (fun _ => EmptyString)
               (SciDB_init doc_db "build" []) [Py.VStr "b"] [].
Proof.
  exact (proj2 (SciDB_call_last_wins
                  (doc_remote []) text_bytes (fun _ => Raise SchemaMismatch)
                  (fun _ => EmptyString) (fun _ => EmptyString)
                  (SciDB_init doc_db "build" []) [Py.VStr "a"] [Py.VStr "b"] [])
               eq_refl).
Defined.

Lemma show_query_escapes_quotes_witness :
  show_query "scan(foo)" = "show('scan(foo)', 'afl')"%string.
Proof.
  refine (proj1 (proj2 (show_query_escapes_quotes "scan(foo)")) _).
  intros c H. simpl in H.
  repeat (destruct H as [<- | H]; [discriminate |]). destruct H.
Defined.
